(** * BoundsCheck: a shallow embedding of the LLVM bounds-checking pass

    Source: [src/pass/BoundsCheck/BoundsCheck.cpp].  The pass is a legacy
    [FunctionPass]: for every function it collects the [getelementptr]
    instructions, recovers for each of them the length of the indexed array
    and the constant index, and calls [report_fatal_error] when the index
    is not below the length.

    The development has three layers:
    - the part of the LLVM IR and of its C++ API that the pass reads
      (types, values, instructions, functions, modules);
    - the pass itself, written in a small state-and-abort monad that keeps
      the pass object's field [Assert], the modules' function lists and the
      debug stream;
    - the properties of the pass. *)

From Stdlib Require Import ZArith List String Ascii Bool Lia DecimalString.
From Stdlib Require DecimalPos DecimalZ.
Import ListNotations.

Set Warnings "-register-all".

Local Open Scope string_scope.
Local Open Scope list_scope.
Local Open Scope Z_scope.

(* ================================================================== *)
(** ** The LLVM IR read by the pass                                    *)
(* ================================================================== *)

(** [llvm::Type].  [ArrayType::NumElements] is a [uint64_t]. *)
Inductive Ty : Type :=
| VoidTy
| IntegerTy (bits : N)
| PointerTy (pointee : Ty)
| ArrayTy (NumElements : Z) (elt : Ty)
| VectorTy (NumElements : Z) (elt : Ty)
| StructTy (elts : list Ty)
| FunctionTy (ret : Ty) (params : list Ty) (isVarArg : bool).

(** [llvm::APInt]: a bit width and the bit pattern, read as an unsigned
    number. *)
Record APInt : Type := mkAPInt { BitWidth : N; U : Z }.

(** [llvm::Value], as far as the pass distinguishes values: a
    [ConstantInt], or anything else (argument, instruction result, global,
    any other constant) with its type. *)
Inductive Value : Type :=
| ConstantInt (Val : APInt)
| OtherValue (ty : Ty) (name : string).

Definition getType (v : Value) : Ty :=
  match v with
  | ConstantInt a => IntegerTy (BitWidth a)
  | OtherValue ty _ => ty
  end.

(** [llvm::GetElementPtrInst]: operand 0 is the pointer operand, operands
    1 .. n are the indices.  LLVM accepts an empty index list
    ([getIndexedType] treats the empty index set as always valid). *)
Record GetElementPtrInst : Type := mkGEP {
  getPointerOperand : Value;
  indices : list Value
}.

Inductive Instruction : Type :=
| GetElementPtr (GEP : GetElementPtrInst)
| Call (callee : string) (args : list Value)
| OtherInst (opcode : string) (operands : list Value).

Definition BasicBlock : Type := list Instruction.

(** A module is identified by its address. *)
Definition ModulePtr : Type := nat.

Inductive LinkageTypes : Type := ExternalLinkage | InternalLinkage.
Inductive Attribute : Type := NoReturn | NoUnwind.
Inductive CallingConv : Type := CC_C | CC_Fast.

(** [llvm::Function]: a declaration has no basic block. *)
Record Function : Type := mkFunction {
  getName : string;
  getParent : ModulePtr;
  getFunctionType : Ty;
  getLinkage : LinkageTypes;
  getAttributes : list Attribute;
  getCallingConv : CallingConv;
  blocks : list BasicBlock
}.

Definition isDeclaration (F : Function) : bool :=
  match blocks F with [] => true | _ => false end.

(* ------------------------------------------------------------------ *)
(** *** Casts and accessors of the LLVM API                            *)
(* ------------------------------------------------------------------ *)

(** The views that [dyn_cast] gives on success. *)
Record PointerType : Type := mkPointerType { getPointerElementType : Ty }.
Record ArrayType : Type := mkArrayType {
  getArrayNumElements : Z;
  getArrayElementType : Ty
}.

(** [dyn_cast<T>(x)] is [None] for the null pointer it returns on a
    mismatch. *)
Definition dyn_cast_PointerType (t : Ty) : option PointerType :=
  match t with
  | PointerTy e => Some (mkPointerType e)
  | _ => None
  end.

Definition dyn_cast_ArrayType (t : Ty) : option ArrayType :=
  match t with
  | ArrayTy n e => Some (mkArrayType n e)
  | _ => None
  end.

Definition dyn_cast_ConstantInt (v : Value) : option APInt :=
  match v with
  | ConstantInt a => Some a
  | OtherValue _ _ => None
  end.

Definition dyn_cast_GetElementPtrInst (I : Instruction)
  : option GetElementPtrInst :=
  match I with
  | GetElementPtr GEP => Some GEP
  | _ => None
  end.

Definition isa_ConstantInt (v : Value) : bool :=
  match dyn_cast_ConstantInt v with Some _ => true | None => false end.

Definition getPointerOperandType (GEP : GetElementPtrInst) : Ty :=
  getType (getPointerOperand GEP).

Definition getNumOperands (GEP : GetElementPtrInst) : nat :=
  List.length (getPointerOperand GEP :: indices GEP).

Definition getNumIndices (GEP : GetElementPtrInst) : nat :=
  (getNumOperands GEP - 1)%nat.

(** [User::getOperand(i)]; [None] when [i] is not below [getNumOperands]. *)
Definition getOperand (GEP : GetElementPtrInst) (i : nat) : option Value :=
  nth_error (getPointerOperand GEP :: indices GEP) i.

(** [GetElementPtrInst::hasAllConstantIndices]: every operand from 1 on is
    a [ConstantInt]. *)
Definition hasAllConstantIndices (GEP : GetElementPtrInst) : bool :=
  forallb isa_ConstantInt (indices GEP).

(* ------------------------------------------------------------------ *)
(** *** Machine integers                                               *)
(* ------------------------------------------------------------------ *)

(** [APInt::getZExtValue]: the bit pattern zero-extended to [uint64_t].
    For a width above 64 LLVM asserts that the value fits 64 bits; the
    model takes the low 64 bits, as a build without assertions does. *)
Definition getZExtValue (a : APInt) : Z :=
  (U a mod 2 ^ Z.of_N (BitWidth a)) mod 2 ^ 64.

(** Conversion of a [uint64_t] to [int] (32 bits, two's complement): the
    low 32 bits, read as a signed number. *)
Definition to_int (u : Z) : Z :=
  let m := u mod 2 ^ 32 in
  if m <? 2 ^ 31 then m else m - 2 ^ 32.

Definition INT_MAX : Z := 2 ^ 31 - 1.

(* ------------------------------------------------------------------ *)
(** *** Formatting                                                     *)
(* ------------------------------------------------------------------ *)

(** The [%d] conversion of [printf]. *)
Definition print_d (n : Z) : string := NilZero.string_of_int (Z.to_int n).

(** The text that [vsnprintf] produces, for the formats the pass uses:
    ordinary characters and [%d] conversions, each with an [int] argument
    (see [supported] below).  Other conversions are outside this model;
    a [%] that does not start [%d] is copied like an ordinary
    character. *)
Fixpoint vsnprintf (format : string) (args : list Z) : string :=
  match format with
  | EmptyString => EmptyString
  | String "%" (String "d" rest) =>
      match args with
      | a :: args' => (print_d a ++ vsnprintf rest args')%string
      | [] => vsnprintf rest []
      end
  | String c rest => String c (vsnprintf rest args)
  end.

(* ================================================================== *)
(** ** The monad of the pass                                           *)
(* ================================================================== *)

(** What [LLVM_DEBUG] writes to [dbgs()], one constructor per statement of
    the source. *)
Inductive DebugEvent : Type :=
| DbgProcessingFunction (name : string)
| DbgGEPInstruction (GEP : GetElementPtrInst)
| DbgArrayLength (arrayLength : Z)
| DbgConstantIndices
| DbgDesiredIndex (desiredIndex : Z)
| DbgCorrectBounds
| DbgNotAnalysed
| DbgEndOfInstruction.

(** The pass object's field [Assert], the function list of every module,
    the [-debug] flag and the debug stream. *)
Record State : Type := mkState {
  Assert : option Function;
  modules : ModulePtr -> list Function;
  DebugFlag : bool;
  dbgs : list DebugEvent
}.

(** Undefined behaviour the pass can run into. *)
Inductive UB : Type :=
| NullPointerDereference
| OperandOutOfRange.

(** A computation finishes, or the process is ended by
    [report_fatal_error], or its behaviour is undefined. *)
Inductive result (A : Type) : Type :=
| Done (a : A)
| FatalError (msg : string)
| Undefined (why : UB).

Arguments Done {A} a.
Arguments FatalError {A} msg.
Arguments Undefined {A} why.

Definition M (A : Type) : Type := State -> result A * State.

Definition ret {A} (a : A) : M A := fun s => (Done a, s).

Definition bind {A B} (m : M A) (k : A -> M B) : M B :=
  fun s =>
    match m s with
    | (Done a, s') => k a s'
    | (FatalError msg, s') => (FatalError msg, s')
    | (Undefined why, s') => (Undefined why, s')
    end.

Declare Scope pass_scope.
Delimit Scope pass_scope with pass.
Notation "x <- m ;; k" := (bind m (fun x => k))
  (at level 61, m at next level, right associativity) : pass_scope.
Notation "m ;; k" := (bind m (fun _ => k))
  (at level 61, right associativity) : pass_scope.
Local Open Scope pass_scope.

Definition report_fatal_error {A} (msg : string) : M A :=
  fun s => (FatalError msg, s).

Definition undefined {A} (why : UB) : M A :=
  fun s => (Undefined why, s).

(** The state after [e] was offered to the debug stream. *)
Definition emit (e : DebugEvent) (s : State) : State :=
  if DebugFlag s
  then mkState (Assert s) (modules s) (DebugFlag s) (dbgs s ++ [e])
  else s.

Definition LLVM_DEBUG (e : DebugEvent) : M unit :=
  fun s => (Done tt, emit e s).

(** The value and the final state of a computation. *)
Definition value {A} (m : M A) (s : State) : result A := fst (m s).
Definition exec {A} (m : M A) (s : State) : State := snd (m s).

(* ================================================================== *)
(** ** The pass                                                        *)
(* ================================================================== *)

(** [BoundsCheck::stringFormat], as a function of format and arguments:
    the text of the format.  The buffer of lines 130-136 is written out in
    [stringFormat_buffered] below, which returns this text for every
    supported format without NUL, the format of line 85 among them.
    ([va_start] is given a parameter of reference type; the model takes
    what GCC and Clang do, which read the variable arguments all the
    same.) *)
Definition stringFormat (format : string) (args : list Z) : string :=
  vsnprintf format args.

Definition assert_type : Ty :=
  let CharPtrTy := PointerTy (IntegerTy 8) in
  let IntTy := IntegerTy 32 in
  let VoidTy' := VoidTy in
  let assert_arg_types := (([] ++ [CharPtrTy]) ++ [CharPtrTy]) ++ [IntTy] in
  FunctionTy VoidTy' assert_arg_types true.

(** [Function::Create]: a new function with no block, no attribute and
    the C calling convention is appended to the module's list, whether or
    not one of that name is there already.  The name of the new function
    is the requested one when the module's symbol table has no global of
    that name; otherwise the symbol table makes it unique by a suffix,
    which the model does not compute: it records the requested name, so
    [getName] of a created function is the name asked for, not always the
    name it has. *)
Definition Function_Create (T : Ty) (Linkage : LinkageTypes) (N : string)
    (Mod : ModulePtr) : M Function :=
  fun s =>
    let F := mkFunction N Mod T Linkage [] CC_C [] in
    (Done F,
     mkState (Assert s)
             (fun m => if Nat.eqb m Mod then modules s m ++ [F]
                       else modules s m)
             (DebugFlag s) (dbgs s)).

(** [Function::addFnAttr] and [Function::setCallingConv] on a function
    that was appended last to its module's list. *)
Definition updateLast (F : Function) : M Function :=
  fun s =>
    (Done F,
     mkState (Assert s)
             (fun m => if Nat.eqb m (getParent F)
                       then removelast (modules s m) ++ [F]
                       else modules s m)
             (DebugFlag s) (dbgs s)).

Definition addFnAttr (F : Function) (a : Attribute) : M Function :=
  updateLast (mkFunction (getName F) (getParent F) (getFunctionType F)
                         (getLinkage F) (getAttributes F ++ [a])
                         (getCallingConv F) (blocks F)).

Definition setCallingConv (F : Function) (cc : CallingConv) : M Function :=
  updateLast (mkFunction (getName F) (getParent F) (getFunctionType F)
                         (getLinkage F) (getAttributes F) cc (blocks F)).

(** [BoundsCheck::getAssertFunction]. *)
Definition getAssertFunction (Mod : ModulePtr) : M Function :=
  F <- Function_Create assert_type ExternalLinkage "__assert" Mod ;;
  F <- addFnAttr F NoReturn ;;
  F <- setCallingConv F CC_C ;;
  ret F.

(** The private field of the pass object. *)
Definition readAssert : M (option Function) :=
  fun s => (Done (Assert s), s).

Definition writeAssert (A : Function) : M unit :=
  fun s => (Done tt, mkState (Some A) (modules s) (DebugFlag s) (dbgs s)).

(** Lines 50-56: the collector. *)
Definition collect (F : Function) : list GetElementPtrInst :=
  fold_left
    (fun WorkList FI =>
       fold_left
         (fun WorkList BI =>
            match dyn_cast_GetElementPtrInst BI with
            | Some GEP => WorkList ++ [GEP]
            | None => WorkList
            end)
         FI WorkList)
    (blocks F) [].

(** Lines 62 and 66-72: the length of the indexed array. *)
Definition recoverArrayLength (GEP : GetElementPtrInst) : M Z :=
  let arrayLength := -1 in
  match dyn_cast_PointerType (getPointerOperandType GEP) with
  | Some pointerOperandType =>
      match dyn_cast_ArrayType (getPointerElementType pointerOperandType) with
      | Some arrayElementType =>
          let arrayLength := to_int (getArrayNumElements arrayElementType) in
          LLVM_DEBUG (DbgArrayLength arrayLength) ;;
          ret arrayLength
      | None => ret arrayLength
      end
  | None => ret arrayLength
  end.

(** Lines 63 and 75-80: the requested index.  The result of the
    [dyn_cast] is dereferenced without a test. *)
Definition recoverDesiredIndex (GEP : GetElementPtrInst) : M Z :=
  let desiredIndex := -1 in
  if hasAllConstantIndices GEP then
    LLVM_DEBUG DbgConstantIndices ;;
    match getOperand GEP (getNumIndices GEP) with
    | None => undefined OperandOutOfRange
    | Some op =>
        match dyn_cast_ConstantInt op with
        | None => undefined NullPointerDereference
        | Some constantInt =>
            let desiredIndex := to_int (getZExtValue constantInt) in
            LLVM_DEBUG (DbgDesiredIndex desiredIndex) ;;
            ret desiredIndex
        end
    end
  else ret desiredIndex.

Definition violationFormat : string :=
  "Wrong assignment to index %d (zero-based) while array has length %d! Aborting...".

(** Lines 83-91: the decision. *)
Definition decisionPolicy (arrayLength desiredIndex : Z) : M unit :=
  if (arrayLength >=? 0) && (desiredIndex >=? 0) then
    if desiredIndex >=? arrayLength then
      report_fatal_error
        (stringFormat violationFormat [desiredIndex; arrayLength])
    else
      LLVM_DEBUG DbgCorrectBounds
  else
    LLVM_DEBUG DbgNotAnalysed.

(** Lines 61-93: the body of the loop over the work list. *)
Definition analyse (GEP : GetElementPtrInst) : M unit :=
  LLVM_DEBUG (DbgGEPInstruction GEP) ;;
  arrayLength <- recoverArrayLength GEP ;;
  desiredIndex <- recoverDesiredIndex GEP ;;
  decisionPolicy arrayLength desiredIndex ;;
  LLVM_DEBUG DbgEndOfInstruction.

(** Line 60: [for (auto *GEP : WorkList)]. *)
Fixpoint processWorkList (WorkList : list GetElementPtrInst) : M unit :=
  match WorkList with
  | [] => ret tt
  | GEP :: rest => analyse GEP ;; processWorkList rest
  end.

(** [BoundsCheck::runOnFunction].  The [IRBuilder] of line 34 is never
    used. *)
Definition runOnFunction (F : Function) : M bool :=
  LLVM_DEBUG (DbgProcessingFunction (getName F)) ;;
  A <- readAssert ;;
  (if match A with
      | None => true
      | Some A => negb (Nat.eqb (getParent A) (getParent F))
      end
   then A <- getAssertFunction (getParent F) ;; writeAssert A
   else ret tt) ;;
  let WorkList := collect F in
  let changed := false in
  processWorkList WorkList ;;
  ret changed.

(** The host pipeline: the pass object is run on one function after the
    other. *)
Fixpoint runOnFunctions (Fs : list Function) : M unit :=
  match Fs with
  | [] => ret tt
  | F :: rest => runOnFunction F ;; runOnFunctions rest
  end.

(* ================================================================== *)
(** ** Inputs used in the examples                                     *)
(* ================================================================== *)

Definition i64 (n : Z) : Value := ConstantInt (mkAPInt 64 n).

(** [%a], of type [[L x i32]*]. *)
Definition arrayPtr (L : Z) : Value :=
  OtherValue (PointerTy (ArrayTy L (IntegerTy 32))) "a".

(** [%p], of type [i32*]. *)
Definition scalarPtr : Value := OtherValue (PointerTy (IntegerTy 32)) "p".

(** [getelementptr [L x i32], [L x i32]* %a, i64 0, i64 i]. *)
Definition element (L i : Z) : GetElementPtrInst :=
  mkGEP (arrayPtr L) [i64 0; i64 i].

(** A fresh pass object and empty modules, with [-debug] on. *)
Definition initial : State := mkState None (fun _ => []) true [].

Definition voidFn (name : string) (Mod : ModulePtr)
    (body : list BasicBlock) : Function :=
  mkFunction name Mod (FunctionTy VoidTy [] false) ExternalLinkage [] CC_C
             body.

(** Two functions of module 0, and a state in which module 0 holds
    them and the pass object is fresh. *)
Definition twoAccesses : Function :=
  voidFn "f" 0%nat
         [[OtherInst "alloca" []; GetElementPtr (element 5 3)];
          [GetElementPtr (element 5 4); OtherInst "ret" []]].

Definition oneAccess : Function :=
  voidFn "g" 0%nat [[GetElementPtr (element 5 0); OtherInst "ret" []]].

(** A function whose second and third access are out of bounds. *)
Definition violatingFunction : Function :=
  voidFn "k" 0%nat
         [[GetElementPtr (element 5 3); GetElementPtr (element 5 7);
           GetElementPtr (element 5 9)]].

Definition loaded : State :=
  mkState None
          (fun m => if Nat.eqb m 0 then [twoAccesses; oneAccess] else [])
          true [].

(* ================================================================== *)
(** ** The vocabulary of the properties                            *)
(* ================================================================== *)

(** What a computation may do to the state when it only writes to the
    debug stream. *)
Definition onlyDebug (s s' : State) : Prop :=
  Assert s' = Assert s /\
  (forall m, modules s' m = modules s m) /\
  DebugFlag s' = DebugFlag s /\
  exists new, dbgs s' = dbgs s ++ new.

(** The length is known when the pointer operand points to a fixed-size
    array; the index is known when all indices are constants. *)
Definition lengthKnown (GEP : GetElementPtrInst) : Prop :=
  exists L elt, getPointerOperandType GEP = PointerTy (ArrayTy L elt).

Definition indexKnown (GEP : GetElementPtrInst) : Prop :=
  hasAllConstantIndices GEP = true.

(** [s] contains [sub]. *)
Definition contains (s sub : string) : Prop :=
  exists pre post, s = (pre ++ sub ++ post)%string.

Definition violationMessage (desiredIndex arrayLength : Z) : string :=
  ("Wrong assignment to index " ++ print_d desiredIndex
   ++ " (zero-based) while array has length " ++ print_d arrayLength
   ++ "! Aborting...")%string.

(** The decision table of the specification (section 4.2), written after
    its words on quantities that are known or unknown: a violation when
    both are known and the index is not below the length, a pass when both
    are known and the index is below the length, a silent pass when either
    is unknown.  [perform] is the action taken; [sentinel] is the encoding
    of "unknown" in the pass. *)
Inductive Action : Type :=
| RaiseViolation (desiredIndex arrayLength : Z)
| PassInBounds
| PassNotAnalysable.

Definition decisionTable (arrayLength desiredIndex : option Z) : Action :=
  match arrayLength, desiredIndex with
  | Some L, Some i => if i >=? L then RaiseViolation i L else PassInBounds
  | _, _ => PassNotAnalysable
  end.

Definition perform (a : Action) : M unit :=
  match a with
  | RaiseViolation i L => report_fatal_error (violationMessage i L)
  | PassInBounds => LLVM_DEBUG DbgCorrectBounds
  | PassNotAnalysable => LLVM_DEBUG DbgNotAnalysed
  end.

Definition sentinel (q : option Z) : Z :=
  match q with Some n => n | None => -1 end.

Definition nonNegative (q : option Z) : Prop :=
  match q with Some n => 0 <= n | None => True end.

(** The declaration that [getAssertFunction] leaves in the module. *)
Definition assertDeclaration (Mod : ModulePtr) : Function :=
  mkFunction "__assert" Mod assert_type ExternalLinkage [NoReturn] CC_C [].

(** The test of line 44. *)
Definition stale (s : State) (F : Function) : bool :=
  match Assert s with
  | None => true
  | Some A => negb (Nat.eqb (getParent A) (getParent F))
  end.

(** The call instructions of a list of functions. *)
Definition isCall (I : Instruction) : bool :=
  match I with Call _ _ => true | _ => false end.

Definition callSites (Fs : list Function) : list Instruction :=
  flat_map (fun F => flat_map (filter isCall) (blocks F)) Fs.

(** The field of the pass object points into module [Mod]. *)
Definition declaredIn (Mod : ModulePtr) (s : State) : Prop :=
  exists A, Assert s = Some A /\ getParent A = Mod.

(** The pointer-indexing instructions of a function, in block order and
    then in the order of the block. *)
Definition gepsOfBlock (BB : BasicBlock) : list GetElementPtrInst :=
  flat_map (fun I => match I with GetElementPtr GEP => [GEP] | _ => [] end)
           BB.

Definition gepsInOrder (F : Function) : list GetElementPtrInst :=
  flat_map gepsOfBlock (blocks F).

(** The instructions that the analyser announced on the debug stream. *)
Definition visited (log : list DebugEvent) : list GetElementPtrInst :=
  flat_map (fun e => match e with DbgGEPInstruction GEP => [GEP] | _ => [] end)
           log.

(* ------------------------------------------------------------------ *)
(** *** [stringFormat] with its buffer                                 *)
(* ------------------------------------------------------------------ *)

Definition NUL : ascii := Ascii.zero.

(** The C string that starts at the first character of a buffer: the
    characters before the first NUL ([std::string::c_str] read by a C
    function, and [std::string(const char * )]). *)
Fixpoint c_str (s : string) : string :=
  match s with
  | EmptyString => EmptyString
  | String c rest =>
      if Ascii.eqb c NUL then EmptyString else String c (c_str rest)
  end.

Fixpoint noNUL (s : string) : bool :=
  match s with
  | EmptyString => true
  | String c rest => negb (Ascii.eqb c NUL) && noNUL rest
  end.

(** [std::vector<char> vec(n)]: [n] characters, all NUL. *)
Fixpoint vector_char (n : nat) : string :=
  match n with
  | O => EmptyString
  | S n' => String NUL (vector_char n')
  end.

Fixpoint take (n : nat) (s : string) : string :=
  match n, s with
  | S n', String c rest => String c (take n' rest)
  | _, _ => EmptyString
  end.

Fixpoint skip (n : nat) (s : string) : string :=
  match n, s with
  | S n', String _ rest => skip n' rest
  | _, _ => s
  end.

(** [vsnprintf(buffer, bufsz, format, args)]: the return value is the
    length of the whole text; with [bufsz > 0] the first [bufsz - 1]
    characters of the text and a NUL are written to the start of the
    buffer, with [bufsz = 0] nothing is written. *)
Definition vsnprintf_buffer (buffer : string) (bufsz : nat)
    (format : string) (args : list Z) : nat * string :=
  let text := vsnprintf format args in
  (String.length text,
   match bufsz with
   | O => buffer
   | S n =>
       let written := (take n text ++ String NUL EmptyString)%string in
       (written ++ skip (String.length written) buffer)%string
   end).

(** Lines 127-137, with the buffer: the length is measured with a null
    buffer of size 0, a vector of [len + 1] characters is filled by the
    second call, and the C string at its start is returned. *)
Definition stringFormat_buffered (format : string) (args : list Z)
  : string :=
  let len := fst (vsnprintf_buffer EmptyString 0 (c_str format) args) in
  let vec := vector_char (len + 1) in
  let vec := snd (vsnprintf_buffer vec (len + 1) (c_str format) args) in
  c_str vec.

(** The formats and arguments for which [vsnprintf] above is the text
    that the C function produces: no NUL, every [%] starts a [%d], and
    every [%d] has an argument in the range of [int]. *)
Fixpoint supported (format : string) (args : list Z) : bool :=
  match format with
  | EmptyString => true
  | String "%" (String "d" rest) =>
      match args with
      | a :: args' =>
          (- 2 ^ 31 <=? a) && (a <=? INT_MAX) && supported rest args'
      | [] => false
      end
  | String c rest =>
      negb (Ascii.eqb c "%") && negb (Ascii.eqb c NUL) && supported rest args
  end.

(** A format without conversion: no [%] in it. *)
Fixpoint noPercent (s : string) : bool :=
  match s with
  | EmptyString => true
  | String c rest => negb (Ascii.eqb c "%") && noPercent rest
  end.

(** Every instruction of the work list is analysed without a diagnostic
    and without a fault. *)
Definition allPass (WorkList : list GetElementPtrInst) (s : State) : Prop :=
  Forall (fun GEP => value (analyse GEP) s = Done tt) WorkList.

(* ================================================================== *)
(** ** Machine integers                                                *)
(* ================================================================== *)

Section MachineIntegers.

Lemma to_int_small (u : Z) : 0 <= u <= INT_MAX -> to_int u = u.
Proof.
  unfold to_int, INT_MAX. intros Hu.
  rewrite Z.mod_small by lia.
  destruct (u <? 2 ^ 31) eqn:E; [reflexivity | apply Z.ltb_ge in E; lia].
Qed.

Lemma to_int_range (u : Z) : - 2 ^ 31 <= to_int u <= INT_MAX.
Proof.
  unfold to_int, INT_MAX.
  assert (H : 0 <= u mod 2 ^ 32 < 2 ^ 32) by (apply Z.mod_pos_bound; lia).
  destruct (u mod 2 ^ 32 <? 2 ^ 31) eqn:E.
  - apply Z.ltb_lt in E. lia.
  - apply Z.ltb_ge in E. lia.
Qed.

Lemma getZExtValue_small (w : N) (u : Z) :
  0 <= u < 2 ^ Z.of_N w -> 0 <= u < 2 ^ 64 ->
  getZExtValue (mkAPInt w u) = u.
Proof.
  intros Hw H64. unfold getZExtValue. simpl.
  rewrite (Z.mod_small u) by lia. apply Z.mod_small. lia.
Qed.

End MachineIntegers.

(* ================================================================== *)
(** ** The monad                                                       *)
(* ================================================================== *)

Section MonadFacts.

Context {A B : Type}.

Lemma bind_Done (m : M A) (k : A -> M B) s a s' :
  m s = (Done a, s') -> bind m k s = k a s'.
Proof. intros H. unfold bind. rewrite H. reflexivity. Qed.

Lemma bind_FatalError (m : M A) (k : A -> M B) s msg s' :
  m s = (FatalError msg, s') -> bind m k s = (FatalError msg, s').
Proof. intros H. unfold bind. rewrite H. reflexivity. Qed.

Lemma bind_Undefined (m : M A) (k : A -> M B) s why s' :
  m s = (Undefined why, s') -> bind m k s = (Undefined why, s').
Proof. intros H. unfold bind. rewrite H. reflexivity. Qed.

End MonadFacts.

Lemma onlyDebug_refl s : onlyDebug s s.
Proof.
  split; [reflexivity | split; [reflexivity | split; [reflexivity |]]].
  exists []. symmetry. apply app_nil_r.
Qed.

Lemma onlyDebug_trans s1 s2 s3 :
  onlyDebug s1 s2 -> onlyDebug s2 s3 -> onlyDebug s1 s3.
Proof.
  intros (Ha & Hm & Hd & n1 & H1) (Ha' & Hm' & Hd' & n2 & H2).
  split; [congruence | split; [| split; [congruence |]]].
  - intros m. rewrite Hm'. apply Hm.
  - exists (n1 ++ n2). rewrite H2, H1. symmetry. apply app_assoc.
Qed.

Lemma onlyDebug_emit e s : onlyDebug s (emit e s).
Proof.
  unfold emit. destruct (DebugFlag s) eqn:E.
  - split; [reflexivity | split; [reflexivity | split; [simpl; congruence |]]].
    exists [e]. reflexivity.
  - apply onlyDebug_refl.
Qed.

Lemma emit_Assert e s : Assert (emit e s) = Assert s.
Proof. unfold emit. destruct (DebugFlag s); reflexivity. Qed.

Lemma emit_modules e s : modules (emit e s) = modules s.
Proof. unfold emit. destruct (DebugFlag s); reflexivity. Qed.

Lemma emit_DebugFlag e s : DebugFlag (emit e s) = DebugFlag s.
Proof. unfold emit. destruct (DebugFlag s) eqn:E; simpl; congruence. Qed.

Lemma emit_dbgs_on e s :
  DebugFlag s = true -> dbgs (emit e s) = dbgs s ++ [e].
Proof. intros H. unfold emit. rewrite H. reflexivity. Qed.

(* ================================================================== *)
(** ** The two recoveries                                              *)
(* ================================================================== *)

Section Recovery.

Variable GEP : GetElementPtrInst.

Lemma recoverArrayLength_array L elt s :
  getPointerOperandType GEP = PointerTy (ArrayTy L elt) ->
  recoverArrayLength GEP s
  = (Done (to_int L), emit (DbgArrayLength (to_int L)) s).
Proof.
  intros H. unfold recoverArrayLength. rewrite H. reflexivity.
Qed.

Lemma recoverArrayLength_other s :
  ~ lengthKnown GEP -> recoverArrayLength GEP s = (Done (-1), s).
Proof.
  intros H. unfold recoverArrayLength.
  destruct (getPointerOperandType GEP) as [| | pointee | | | |] eqn:E;
    try reflexivity.
  destruct pointee; try reflexivity.
  exfalso. apply H. unfold lengthKnown. rewrite E. eauto.
Qed.

Lemma lengthKnown_dec : lengthKnown GEP \/ ~ lengthKnown GEP.
Proof.
  unfold lengthKnown.
  destruct (getPointerOperandType GEP) as [| | pointee | | | |];
    try (right; intros (L & elt & H); discriminate).
  destruct pointee; try (right; intros (L & elt & H); discriminate).
  left. eauto.
Qed.

(** The length recovery always finishes and only writes debug output. *)
Lemma recoverArrayLength_Done s :
  exists al, recoverArrayLength GEP s = (Done al, exec (recoverArrayLength GEP) s)
             /\ onlyDebug s (exec (recoverArrayLength GEP) s).
Proof.
  destruct lengthKnown_dec as [(L & elt & H) | H].
  - exists (to_int L). unfold exec.
    rewrite (recoverArrayLength_array L elt s H). simpl.
    split; [reflexivity | apply onlyDebug_emit].
  - exists (-1). unfold exec. rewrite (recoverArrayLength_other s H).
    simpl. split; [reflexivity | apply onlyDebug_refl].
Qed.

(** The operand read at line 77 is the last index, or the pointer
    operand when there is no index. *)
Lemma last_cons_default (A : Type) (l : list A) (x a b : A) :
  last (x :: l) a = last (x :: l) b.
Proof.
  revert x. induction l as [| y l IH]; intros x; [reflexivity |].
  change (last (y :: l) a = last (y :: l) b). apply IH.
Qed.

Lemma nth_error_length_last (A : Type) (l : list A) (a : A) :
  nth_error (a :: l) (List.length l) = Some (last l a).
Proof.
  revert a. induction l as [| x l IH]; intros a; [reflexivity |].
  simpl List.length. change (nth_error (a :: x :: l) (S (List.length l)))
    with (nth_error (x :: l) (List.length l)).
  rewrite IH. destruct l as [| y l]; [reflexivity |].
  f_equal. change (last (x :: y :: l) a) with (last (y :: l) a).
  apply last_cons_default.
Qed.

Lemma getOperand_getNumIndices :
  getOperand GEP (getNumIndices GEP)
  = Some (last (indices GEP) (getPointerOperand GEP)).
Proof.
  unfold getOperand, getNumIndices, getNumOperands. simpl List.length.
  rewrite Nat.sub_1_r. simpl Nat.pred. apply nth_error_length_last.
Qed.

Lemma recoverDesiredIndex_constant front c s :
  indices GEP = front ++ [ConstantInt c] ->
  hasAllConstantIndices GEP = true ->
  recoverDesiredIndex GEP s
  = (Done (to_int (getZExtValue c)),
     emit (DbgDesiredIndex (to_int (getZExtValue c)))
          (emit DbgConstantIndices s)).
Proof.
  intros Hi Hc. unfold recoverDesiredIndex. rewrite Hc.
  unfold bind at 1. unfold LLVM_DEBUG at 1.
  rewrite getOperand_getNumIndices, Hi, last_last. reflexivity.
Qed.

Lemma recoverDesiredIndex_nonconstant s :
  hasAllConstantIndices GEP = false ->
  recoverDesiredIndex GEP s = (Done (-1), s).
Proof.
  intros Hc. unfold recoverDesiredIndex. rewrite Hc. reflexivity.
Qed.

Lemma recoverDesiredIndex_no_index s :
  indices GEP = [] ->
  dyn_cast_ConstantInt (getPointerOperand GEP) = None ->
  recoverDesiredIndex GEP s
  = (Undefined NullPointerDereference, emit DbgConstantIndices s).
Proof.
  intros Hi Hp. unfold recoverDesiredIndex, hasAllConstantIndices.
  rewrite Hi. cbn [forallb].
  unfold bind at 1. unfold LLVM_DEBUG at 1.
  rewrite getOperand_getNumIndices, Hi. cbn [last]. rewrite Hp.
  reflexivity.
Qed.

(** With at least one index, the guard of line 75 makes the downcast of
    line 77 succeed. *)
Lemma downcast_succeeds_with_an_index :
  indices GEP <> [] ->
  hasAllConstantIndices GEP = true ->
  exists front c,
    indices GEP = front ++ [ConstantInt c] /\
    getOperand GEP (getNumIndices GEP) = Some (ConstantInt c) /\
    dyn_cast_ConstantInt (ConstantInt c) = Some c.
Proof.
  intros Hne Hc.
  destruct (exists_last Hne) as (front & x & Hx).
  unfold hasAllConstantIndices in Hc. rewrite Hx in Hc.
  rewrite forallb_app in Hc. apply andb_true_iff in Hc.
  destruct Hc as [_ Hc]. simpl in Hc.
  destruct x as [c | ty name]; [| discriminate].
  exists front, c. split; [exact Hx | split; [| reflexivity]].
  rewrite getOperand_getNumIndices, Hx, last_last. reflexivity.
Qed.

(** Whether the index recovery finishes does not depend on the state,
    and neither does the index. *)
Lemma recoverDesiredIndex_value s s' :
  value (recoverDesiredIndex GEP) s = value (recoverDesiredIndex GEP) s'.
Proof.
  unfold value, recoverDesiredIndex.
  destruct (hasAllConstantIndices GEP); [| reflexivity].
  unfold bind at 1 3. unfold LLVM_DEBUG at 1 3.
  destruct (getOperand GEP (getNumIndices GEP)) as [op |]; [| reflexivity].
  destruct (dyn_cast_ConstantInt op); reflexivity.
Qed.

Lemma recoverArrayLength_value s s' :
  value (recoverArrayLength GEP) s = value (recoverArrayLength GEP) s'.
Proof.
  unfold value, recoverArrayLength.
  destruct (dyn_cast_PointerType (getPointerOperandType GEP)) as [pt |];
    [| reflexivity].
  destruct (dyn_cast_ArrayType (getPointerElementType pt)); reflexivity.
Qed.

(** The index recovery never raises a diagnostic and only writes debug
    output. *)
Lemma recoverDesiredIndex_onlyDebug s :
  onlyDebug s (exec (recoverDesiredIndex GEP) s) /\
  forall msg, value (recoverDesiredIndex GEP) s <> FatalError msg.
Proof.
  unfold exec, value, recoverDesiredIndex.
  destruct (hasAllConstantIndices GEP).
  - unfold bind at 1 3. unfold LLVM_DEBUG at 1 3.
    destruct (getOperand GEP (getNumIndices GEP)) as [op |].
    + destruct (dyn_cast_ConstantInt op); simpl.
      * split; [| discriminate].
        eapply onlyDebug_trans; apply onlyDebug_emit.
      * split; [apply onlyDebug_emit | discriminate].
    + simpl. split; [apply onlyDebug_emit | discriminate].
  - simpl. split; [apply onlyDebug_refl | discriminate].
Qed.

(** A non-negative [arrayLength] was read from an array type, a
    non-negative [desiredIndex] from a constant operand. *)
Lemma arrayLength_nonneg_known s al :
  value (recoverArrayLength GEP) s = Done al -> 0 <= al -> lengthKnown GEP.
Proof.
  intros H Hal. destruct lengthKnown_dec as [Hk | Hk]; [exact Hk |].
  unfold value in H. rewrite (recoverArrayLength_other s Hk) in H.
  simpl in H. inversion H. lia.
Qed.

Lemma desiredIndex_nonneg_known s di :
  value (recoverDesiredIndex GEP) s = Done di -> 0 <= di -> indexKnown GEP.
Proof.
  intros H Hdi. unfold indexKnown.
  destruct (hasAllConstantIndices GEP) eqn:E; [reflexivity |].
  unfold value in H. rewrite (recoverDesiredIndex_nonconstant s E) in H.
  simpl in H. inversion H. lia.
Qed.

End Recovery.

(* ================================================================== *)
(** ** The decision and the diagnostic                                 *)
(* ================================================================== *)

Lemma string_append_assoc (a b c : string) :
  ((a ++ b) ++ c = a ++ (b ++ c))%string.
Proof.
  induction a as [| ch a IH]; simpl; [reflexivity | now rewrite IH].
Qed.

Section Decision.

Variables arrayLength desiredIndex : Z.
Variable s : State.

Lemma stringFormat_violation :
  stringFormat violationFormat [desiredIndex; arrayLength]
  = violationMessage desiredIndex arrayLength.
Proof. reflexivity. Qed.

Lemma violationMessage_contains :
  contains (violationMessage desiredIndex arrayLength) (print_d desiredIndex)
  /\ contains (violationMessage desiredIndex arrayLength) (print_d arrayLength)
  /\ contains (violationMessage desiredIndex arrayLength) "Aborting".
Proof.
  unfold violationMessage, contains. split; [| split].
  - exists "Wrong assignment to index ".
    eexists. reflexivity.
  - exists ("Wrong assignment to index " ++ print_d desiredIndex
            ++ " (zero-based) while array has length ")%string.
    exists "! Aborting...".
    rewrite !string_append_assoc. reflexivity.
  - exists ("Wrong assignment to index " ++ print_d desiredIndex
            ++ " (zero-based) while array has length "
            ++ print_d arrayLength ++ "! ")%string.
    exists "...".
    rewrite !string_append_assoc. reflexivity.
Qed.

Lemma decisionPolicy_violation :
  0 <= arrayLength <= desiredIndex ->
  decisionPolicy arrayLength desiredIndex s
  = (FatalError (violationMessage desiredIndex arrayLength), s).
Proof.
  intros H. unfold decisionPolicy.
  replace (arrayLength >=? 0) with true by (symmetry; apply Z.geb_le; lia).
  replace (desiredIndex >=? 0) with true by (symmetry; apply Z.geb_le; lia).
  replace (desiredIndex >=? arrayLength) with true
    by (symmetry; apply Z.geb_le; lia).
  reflexivity.
Qed.

Lemma decisionPolicy_correct :
  0 <= desiredIndex < arrayLength ->
  decisionPolicy arrayLength desiredIndex s
  = (Done tt, emit DbgCorrectBounds s).
Proof.
  intros H. unfold decisionPolicy.
  replace (arrayLength >=? 0) with true by (symmetry; apply Z.geb_le; lia).
  replace (desiredIndex >=? 0) with true by (symmetry; apply Z.geb_le; lia).
  replace (desiredIndex >=? arrayLength) with false; [reflexivity |].
  symmetry. rewrite Z.geb_leb. apply Z.leb_gt. lia.
Qed.

Lemma decisionPolicy_unknown :
  arrayLength < 0 \/ desiredIndex < 0 ->
  decisionPolicy arrayLength desiredIndex s
  = (Done tt, emit DbgNotAnalysed s).
Proof.
  intros H. unfold decisionPolicy.
  replace ((arrayLength >=? 0) && (desiredIndex >=? 0)) with false;
    [reflexivity |].
  symmetry. apply andb_false_iff. rewrite !Z.geb_leb.
  destruct H; [left | right]; apply Z.leb_gt; lia.
Qed.

(** The decision raises a diagnostic exactly on [0 <= arrayLength <=
    desiredIndex], and otherwise only writes debug output. *)
Lemma decisionPolicy_cases :
  (0 <= arrayLength <= desiredIndex /\
   decisionPolicy arrayLength desiredIndex s
   = (FatalError (violationMessage desiredIndex arrayLength), s))
  \/ (~ (0 <= arrayLength <= desiredIndex) /\
      value (decisionPolicy arrayLength desiredIndex) s = Done tt /\
      onlyDebug s (exec (decisionPolicy arrayLength desiredIndex) s)).
Proof.
  destruct (Z_lt_dec arrayLength 0) as [Ha | Ha].
  - right. unfold value, exec. rewrite decisionPolicy_unknown by lia.
    simpl. split; [lia | split; [reflexivity | apply onlyDebug_emit]].
  - destruct (Z_lt_dec desiredIndex arrayLength) as [Hd | Hd].
    + right. destruct (Z_lt_dec desiredIndex 0) as [Hn | Hn].
      * unfold value, exec. rewrite decisionPolicy_unknown by lia.
        simpl. split; [lia | split; [reflexivity | apply onlyDebug_emit]].
      * unfold value, exec. rewrite decisionPolicy_correct by lia.
        simpl. split; [lia | split; [reflexivity | apply onlyDebug_emit]].
    + left. split; [lia | apply decisionPolicy_violation; lia].
Qed.

End Decision.

(* ================================================================== *)
(** ** The analysis of one instruction                                 *)
(* ================================================================== *)

Section Analyse.

Variable GEP : GetElementPtrInst.

Lemma analyse_recovered s al s1 di s2 :
  recoverArrayLength GEP (emit (DbgGEPInstruction GEP) s) = (Done al, s1) ->
  recoverDesiredIndex GEP s1 = (Done di, s2) ->
  analyse GEP s
  = (decisionPolicy al di ;; LLVM_DEBUG DbgEndOfInstruction) s2.
Proof.
  intros Hl Hi. unfold analyse.
  unfold bind at 1. unfold LLVM_DEBUG at 1.
  unfold bind at 1. rewrite Hl.
  unfold bind at 1. rewrite Hi. reflexivity.
Qed.

Lemma analyse_index_fault s why :
  value (recoverDesiredIndex GEP) s = Undefined why ->
  value (analyse GEP) s = Undefined why.
Proof.
  intros H. unfold value, analyse.
  unfold bind at 1. unfold LLVM_DEBUG at 1.
  destruct (recoverArrayLength_Done GEP (emit (DbgGEPInstruction GEP) s))
    as (al & Hl & _).
  unfold bind at 1. rewrite Hl.
  rewrite (recoverDesiredIndex_value GEP s
             (exec (recoverArrayLength GEP) (emit (DbgGEPInstruction GEP) s)))
    in H.
  unfold value in H. unfold bind at 1.
  destruct (recoverDesiredIndex GEP
              (exec (recoverArrayLength GEP)
                    (emit (DbgGEPInstruction GEP) s))) as [[di | msg | w] s2];
    simpl in H; try discriminate.
  inversion H. reflexivity.
Qed.

(** The analysis of an instruction changes nothing but the debug
    stream. *)
Lemma analyse_onlyDebug s : onlyDebug s (exec (analyse GEP) s).
Proof.
  set (s0 := emit (DbgGEPInstruction GEP) s).
  destruct (recoverArrayLength_Done GEP s0) as (al0 & Hl & Hd1).
  set (s1 := exec (recoverArrayLength GEP) s0) in *.
  assert (H01 : onlyDebug s s1)
    by (eapply onlyDebug_trans; [apply onlyDebug_emit | exact Hd1]).
  destruct (recoverDesiredIndex_onlyDebug GEP s1) as (Hd2 & _).
  assert (H02 : onlyDebug s (exec (recoverDesiredIndex GEP) s1))
    by (eapply onlyDebug_trans; eassumption).
  unfold exec in H02 |- *. unfold analyse.
  unfold bind at 1. unfold LLVM_DEBUG at 1. fold s0.
  unfold bind at 1. rewrite Hl.
  unfold bind at 1.
  destruct (recoverDesiredIndex GEP s1) as [[di0 | msg | why] s2];
    simpl in H02; try exact H02.
  unfold bind.
  destruct (decisionPolicy_cases al0 di0 s2)
    as [(_ & Hp) | (_ & Hp & Hd3)].
  - rewrite Hp. exact H02.
  - unfold value, exec in Hp, Hd3.
    destruct (decisionPolicy al0 di0 s2) as [[[] | msg | why] s3];
      simpl in Hp, Hd3; try discriminate. simpl.
    eapply onlyDebug_trans; [exact H02 |].
    eapply onlyDebug_trans; [exact Hd3 | apply onlyDebug_emit].
Qed.

(** It raises a diagnostic exactly when both recoveries finish with
    [0 <= arrayLength <= desiredIndex]. *)
Lemma analyse_value s al di :
  value (recoverArrayLength GEP) s = Done al ->
  value (recoverDesiredIndex GEP) s = Done di ->
  (0 <= al <= di ->
   value (analyse GEP) s = FatalError (violationMessage di al)) /\
  (~ (0 <= al <= di) -> value (analyse GEP) s = Done tt).
Proof.
  intros Ha Hb.
  set (s0 := emit (DbgGEPInstruction GEP) s).
  rewrite (recoverArrayLength_value GEP s s0) in Ha.
  destruct (recoverArrayLength_Done GEP s0) as (al0 & Hl & _).
  set (s1 := exec (recoverArrayLength GEP) s0) in *.
  unfold value in Ha. rewrite Hl in Ha. simpl in Ha.
  inversion Ha; subst al0.
  rewrite (recoverDesiredIndex_value GEP s s1) in Hb. unfold value in Hb.
  destruct (recoverDesiredIndex GEP s1) as [[di0 | msg | why] s2] eqn:Hi;
    simpl in Hb; try discriminate.
  inversion Hb; subst di0.
  unfold value. rewrite (analyse_recovered s al s1 di s2 Hl Hi).
  unfold bind.
  destruct (decisionPolicy_cases al di s2) as [(Hv & Hp) | (Hv & Hp & _)].
  - rewrite Hp. simpl. split; [reflexivity | contradiction].
  - unfold value in Hp.
    destruct (decisionPolicy al di s2) as [[[] | msg | why] s3];
      simpl in Hp; try discriminate.
    simpl. split; [contradiction | reflexivity].
Qed.

(** Without a violation there is no diagnostic. *)
Lemma analyse_FatalError s msg :
  value (analyse GEP) s = FatalError msg ->
  exists al di,
    value (recoverArrayLength GEP) s = Done al /\
    value (recoverDesiredIndex GEP) s = Done di /\
    0 <= al <= di /\ msg = violationMessage di al.
Proof.
  intros H.
  destruct (recoverArrayLength_Done GEP s) as (al & Hl & _).
  assert (Ha : value (recoverArrayLength GEP) s = Done al)
    by (unfold value; rewrite Hl; reflexivity).
  destruct (value (recoverDesiredIndex GEP) s) as [di | m | why] eqn:Hb.
  - destruct (analyse_value s al di Ha Hb) as [Hv Hn].
    destruct (Z_le_dec 0 al) as [H0 | H0];
      [destruct (Z_le_dec al di) as [H1 | H1] |].
    + rewrite Hv in H by lia. inversion H.
      exists al, di. repeat split; try assumption; lia.
    + rewrite Hn in H by lia. discriminate.
    + rewrite Hn in H by lia. discriminate.
  - exfalso.
    destruct (recoverDesiredIndex_onlyDebug GEP s) as (_ & Hnf).
    apply (Hnf m). exact Hb.
  - rewrite (analyse_index_fault s why Hb) in H. discriminate.
Qed.

End Analyse.

(* ================================================================== *)
(** ** Length recovery (C5) and index recovery (C4, C10)               *)
(* ================================================================== *)

(** Up to [INT_MAX] the recovered length is the declared element count. *)
Lemma length_recovery_within_int GEP L elt s :
  getPointerOperandType GEP = PointerTy (ArrayTy L elt) ->
  0 <= L <= INT_MAX ->
  value (recoverArrayLength GEP) s = Done L.
Proof.
  intros H HL. unfold value. rewrite (recoverArrayLength_array GEP L elt s H).
  simpl. rewrite to_int_small by exact HL. reflexivity.
Qed.

(** For every other type of the pointer operand the length stays at the
    sentinel. *)
Lemma length_unknown_otherwise GEP s :
  ~ lengthKnown GEP -> value (recoverArrayLength GEP) s = Done (-1).
Proof.
  intros H. unfold value. rewrite (recoverArrayLength_other GEP s H).
  reflexivity.
Qed.

(** C5, at [[3000000000 x i32]* %a]: the declared element count does not
    fit [int]; [arrayLength] becomes [-1294967296], which the decision
    takes for "unknown". *)
Theorem length_recovery_wraps_past_INT_MAX :
  forall s : State,
    getPointerOperandType (element 3000000000 0)
    = PointerTy (ArrayTy 3000000000 (IntegerTy 32))
    /\ value (recoverArrayLength (element 3000000000 0)) s
       = Done (-1294967296)
    /\ value (analyse (element 3000000000 0)) s = Done tt
    /\ value (analyse (element 3000000000 3000000000)) s = Done tt.
Proof.
  intros s. repeat split; vm_compute; reflexivity.
Qed.

(** Up to [INT_MAX] the recovered index is the value of the last index
    operand. *)
Lemma index_recovery_within_int GEP front c s :
  indices GEP = front ++ [ConstantInt c] ->
  hasAllConstantIndices GEP = true ->
  0 <= getZExtValue c <= INT_MAX ->
  value (recoverDesiredIndex GEP) s = Done (getZExtValue c).
Proof.
  intros Hi Hc Hr. unfold value.
  rewrite (recoverDesiredIndex_constant GEP front c s Hi Hc). simpl.
  rewrite to_int_small by exact Hr. reflexivity.
Qed.

(** With an index that is not a constant the index stays at the
    sentinel. *)
Lemma index_unknown_when_not_constant GEP s :
  hasAllConstantIndices GEP = false ->
  value (recoverDesiredIndex GEP) s = Done (-1).
Proof.
  intros H. unfold value. rewrite (recoverDesiredIndex_nonconstant GEP s H).
  reflexivity.
Qed.

(** C4, at [getelementptr [5 x i32], [5 x i32]* %a, i64 0, i64 2147483648]:
    all indices are constants and the last one is 2147483648, but
    [desiredIndex] becomes [-2147483648]. *)
Theorem index_recovery_wraps_past_INT_MAX :
  forall s : State,
    hasAllConstantIndices (element 5 2147483648) = true
    /\ getOperand (element 5 2147483648)
                  (getNumIndices (element 5 2147483648))
       = Some (i64 2147483648)
    /\ getZExtValue (mkAPInt 64 2147483648) = 2147483648
    /\ value (recoverDesiredIndex (element 5 2147483648)) s
       = Done (-2147483648).
Proof.
  intros s. repeat split; vm_compute; reflexivity.
Qed.

(** C10, at [getelementptr [5 x i32], [5 x i32]* %a] (no index): the guard
    of line 75 holds, operand [getNumIndices() = 0] is the pointer
    operand, its downcast to [ConstantInt] is null, and line 78
    dereferences it. *)
Theorem downcast_fails_without_index :
  forall s : State,
    hasAllConstantIndices (mkGEP (arrayPtr 5) []) = true
    /\ getOperand (mkGEP (arrayPtr 5) [])
                  (getNumIndices (mkGEP (arrayPtr 5) []))
       = Some (arrayPtr 5)
    /\ dyn_cast_ConstantInt (arrayPtr 5) = None
    /\ value (recoverDesiredIndex (mkGEP (arrayPtr 5) [])) s
       = Undefined NullPointerDereference.
Proof.
  intros s. repeat split.
Qed.

(* ================================================================== *)
(** ** The decision policy (C2)                                        *)
(* ================================================================== *)

Lemma decisionPolicy_refines_table L Idx s :
  nonNegative L -> nonNegative Idx ->
  decisionPolicy (sentinel L) (sentinel Idx) s
  = perform (decisionTable L Idx) s.
Proof.
  intros HL HI. destruct L as [L |]; destruct Idx as [i |]; simpl in *.
  - destruct (i >=? L) eqn:E.
    + apply decisionPolicy_violation. apply Z.geb_le in E. lia.
    + apply decisionPolicy_correct.
      rewrite Z.geb_leb in E. apply Z.leb_gt in E. lia.
  - apply decisionPolicy_unknown. lia.
  - apply decisionPolicy_unknown. lia.
  - apply decisionPolicy_unknown. lia.
Qed.

(** C2: on a known or unknown length and index, the unknown ones encoded
    by the sentinel -1, the decision of lines 83-91 is the decision table:
    it looks at known/unknown first and compares the two numbers only
    when both are known.  In the analysis of an instruction an unknown
    quantity is the sentinel, and the guard of the comparison
    ([0 <= arrayLength] and [0 <= desiredIndex]) holds only when both
    quantities are known. *)
Theorem known_state_tested_before_comparison :
  forall (GEP : GetElementPtrInst) (s : State),
    (forall L Idx : option Z,
        nonNegative L -> nonNegative Idx ->
        decisionPolicy (sentinel L) (sentinel Idx) s
        = perform (decisionTable L Idx) s)
    /\ (forall al di : Z,
           value (recoverArrayLength GEP) s = Done al ->
           value (recoverDesiredIndex GEP) s = Done di ->
           (~ lengthKnown GEP -> al = -1)
           /\ (~ indexKnown GEP -> di = -1)
           /\ (0 <= al -> 0 <= di -> lengthKnown GEP /\ indexKnown GEP)).
Proof.
  intros GEP s. split.
  - intros L Idx. apply decisionPolicy_refines_table.
  - intros al di Ha Hb. split; [| split].
    + intros Hk. rewrite (length_unknown_otherwise GEP s Hk) in Ha.
      inversion Ha. reflexivity.
    + intros Hk. unfold indexKnown in Hk.
      apply not_true_is_false in Hk.
      rewrite (index_unknown_when_not_constant GEP s Hk) in Hb.
      inversion Hb. reflexivity.
    + intros H0 H1. split.
      * apply (arrayLength_nonneg_known GEP s al Ha H0).
      * apply (desiredIndex_nonneg_known GEP s di Hb H1).
Qed.

Lemma known_state_tested_before_comparison_witness :
  decisionPolicy (sentinel (Some 5)) (sentinel None) initial
  = perform (decisionTable (Some 5) None) initial
  /\ decisionPolicy (sentinel None) (sentinel (Some 7)) initial
     = perform (decisionTable None (Some 7)) initial
  /\ decisionPolicy (sentinel (Some 5)) (sentinel (Some 7)) initial
     = perform (decisionTable (Some 5) (Some 7)) initial
  /\ (lengthKnown (element 5 3) /\ indexKnown (element 5 3)).
Proof.
  destruct (known_state_tested_before_comparison (element 5 3) initial)
    as [Hp Hk].
  split; [| split; [| split]].
  - apply Hp; simpl; [lia | exact I].
  - apply Hp; simpl; [exact I | lia].
  - apply Hp; simpl; lia.
  - destruct (Hk 5 3) as (_ & _ & H); [reflexivity | reflexivity |].
    apply H; lia.
Defined.

(* ================================================================== *)
(** ** Soundness on constants (C1) and conservatism (C3)               *)
(* ================================================================== *)

(** X10: P1 holds as long as the length and the index fit [int]: for a
    pointer operand that points to an array of [L <= INT_MAX] elements and
    constant indices whose last one has a value of at most [INT_MAX], a
    diagnostic is raised exactly when that value is not below [L]. *)
Lemma soundness_on_constants_within_int GEP L elt front c s :
  getPointerOperandType GEP = PointerTy (ArrayTy L elt) ->
  indices GEP = front ++ [ConstantInt c] ->
  hasAllConstantIndices GEP = true ->
  0 <= L <= INT_MAX ->
  0 <= getZExtValue c <= INT_MAX ->
  (exists msg, value (analyse GEP) s = FatalError msg)
  <-> getZExtValue c >= L.
Proof.
  intros Ht Hi Hc HL Hr.
  pose proof (length_recovery_within_int GEP L elt s Ht HL) as Ha.
  pose proof (index_recovery_within_int GEP front c s Hi Hc Hr) as Hb.
  destruct (analyse_value GEP s L (getZExtValue c) Ha Hb) as [Hv Hn].
  split.
  - intros (msg & Hm).
    destruct (Z_le_dec L (getZExtValue c)) as [Hle | Hle]; [lia |].
    rewrite Hn in Hm by lia. discriminate.
  - intros Hge. eexists. apply Hv. lia.
Qed.

Lemma soundness_on_constants_within_int_witness :
  (exists msg, value (analyse (element 0 0)) initial = FatalError msg)
  <-> getZExtValue (mkAPInt 64 0) >= 0.
Proof.
  apply (soundness_on_constants_within_int
           (element 0 0) 0 (IntegerTy 32) [i64 0] (mkAPInt 64 0) initial);
    try reflexivity; vm_compute; split; discriminate.
Defined.

(** C1, past [INT_MAX].  At
    [getelementptr [5 x i32], [5 x i32]* %a, i64 0, i64 2147483648] the
    index is not below the length and no diagnostic is raised; at
    [getelementptr [4294967296 x i32], [4294967296 x i32]* %a, i64 0, i64 0]
    the index is below the length and a diagnostic is raised. *)
Theorem soundness_on_constants_fails_past_INT_MAX :
  forall s : State,
    (getPointerOperandType (element 5 2147483648)
     = PointerTy (ArrayTy 5 (IntegerTy 32))
     /\ hasAllConstantIndices (element 5 2147483648) = true
     /\ getZExtValue (mkAPInt 64 2147483648) >= 5
     /\ value (analyse (element 5 2147483648)) s = Done tt)
    /\ (getPointerOperandType (element 4294967296 0)
        = PointerTy (ArrayTy 4294967296 (IntegerTy 32))
        /\ hasAllConstantIndices (element 4294967296 0) = true
        /\ getZExtValue (mkAPInt 64 0) < 4294967296
        /\ value (analyse (element 4294967296 0)) s
           = FatalError (violationMessage 0 0)).
Proof.
  intros s. split; (split; [reflexivity | split; [reflexivity | split]]).
  - vm_compute. discriminate.
  - vm_compute. reflexivity.
  - vm_compute. reflexivity.
  - vm_compute. reflexivity.
Qed.

(** X11 (P2): an instruction whose pointer operand does not point to an
    array, or one of whose indices is not a constant, never raises a
    diagnostic. *)
Lemma never_raises_when_unknown GEP s :
  ~ lengthKnown GEP \/ hasAllConstantIndices GEP = false ->
  forall msg, value (analyse GEP) s <> FatalError msg.
Proof.
  intros H msg Hm.
  destruct (analyse_FatalError GEP s msg Hm) as (al & di & Ha & Hb & Hr & _).
  destruct H as [H | H].
  - rewrite (length_unknown_otherwise GEP s H) in Ha. inversion Ha. lia.
  - rewrite (index_unknown_when_not_constant GEP s H) in Hb.
    inversion Hb. lia.
Qed.

(** X18: with at least one index such an instruction is passed over: the
    analysis finishes, and the field [Assert], the modules and the debug
    flag are as before; only the debug stream may have grown. *)
Lemma passed_over_with_an_index GEP s :
  ~ lengthKnown GEP \/ hasAllConstantIndices GEP = false ->
  indices GEP <> [] ->
  value (analyse GEP) s = Done tt /\ onlyDebug s (exec (analyse GEP) s).
Proof.
  intros H Hne. split; [| apply analyse_onlyDebug].
  destruct (recoverArrayLength_Done GEP s) as (al & Hl & _).
  assert (Ha : value (recoverArrayLength GEP) s = Done al)
    by (unfold value; rewrite Hl; reflexivity).
  destruct (hasAllConstantIndices GEP) eqn:Hc.
  - destruct H as [H | H]; [| discriminate].
    destruct (downcast_succeeds_with_an_index GEP Hne Hc)
      as (front & c & Hi & _).
    assert (Hb : value (recoverDesiredIndex GEP) s
                 = Done (to_int (getZExtValue c)))
      by (unfold value;
          rewrite (recoverDesiredIndex_constant GEP front c s Hi Hc);
          reflexivity).
    rewrite (length_unknown_otherwise GEP s H) in Ha. inversion Ha; subst al.
    apply (analyse_value GEP s (-1) _ (length_unknown_otherwise GEP s H) Hb).
    lia.
  - pose proof (index_unknown_when_not_constant GEP s Hc) as Hb.
    apply (analyse_value GEP s al (-1) Ha Hb). lia.
Qed.

(** C3, at [getelementptr i32, i32* %p] (no index): the pointer operand
    does not point to an array, and the analysis ends in a null
    dereference; nothing that follows in the work list is analysed. *)
Theorem conservatism_fails_without_index :
  forall (s : State) (rest : list GetElementPtrInst),
    ~ lengthKnown (mkGEP scalarPtr [])
    /\ value (analyse (mkGEP scalarPtr [])) s
       = Undefined NullPointerDereference
    /\ value (processWorkList (mkGEP scalarPtr [] :: rest)) s
       = Undefined NullPointerDereference.
Proof.
  intros s rest. split; [| split].
  - intros (L & elt & H). discriminate.
  - reflexivity.
  - reflexivity.
Qed.

(* ================================================================== *)
(** ** The loop over the work list and the diagnostic (C6)             *)
(* ================================================================== *)

Section WorkList.

Lemma processWorkList_app pre post s :
  processWorkList (pre ++ post) s
  = (processWorkList pre ;; processWorkList post) s.
Proof.
  revert s. induction pre as [| GEP pre IH]; intros s; [reflexivity |].
  simpl. unfold bind at 1 2 3.
  destruct (analyse GEP s) as [[[] | msg | why] s1]; try reflexivity.
  rewrite IH. reflexivity.
Qed.

Lemma processWorkList_onlyDebug WorkList s :
  onlyDebug s (exec (processWorkList WorkList) s).
Proof.
  revert s. induction WorkList as [| GEP rest IH]; intros s.
  - apply onlyDebug_refl.
  - pose proof (analyse_onlyDebug GEP s) as H.
    unfold exec in *. simpl. unfold bind.
    destruct (analyse GEP s) as [[[] | msg | why] s1]; simpl in *;
      try exact H.
    eapply onlyDebug_trans; [exact H | apply IH].
Qed.

(** What the loop returns is [tt], a diagnostic raised by one of the
    instructions, or a fault. *)
Lemma processWorkList_FatalError WorkList s msg :
  value (processWorkList WorkList) s = FatalError msg ->
  exists pre GEP post s1,
    WorkList = pre ++ GEP :: post /\
    processWorkList pre s = (Done tt, s1) /\
    value (analyse GEP) s1 = FatalError msg.
Proof.
  revert s. induction WorkList as [| GEP rest IH]; intros s H.
  - discriminate.
  - unfold value in H. simpl in H. unfold bind in H.
    destruct (analyse GEP s) as [[[] | m | why] s1] eqn:E; simpl in H.
    + destruct (IH s1 H) as (pre & g & post & s2 & Hw & Hp & Hg).
      exists (GEP :: pre), g, post, s2. split; [| split].
      * rewrite Hw. reflexivity.
      * simpl. unfold bind. rewrite E. exact Hp.
      * exact Hg.
    + exists [], GEP, rest, s. split; [reflexivity | split; [reflexivity |]].
      unfold value. rewrite E. exact H.
    + discriminate.
Qed.

End WorkList.

(** The reporter, on the numbers of the analyser: when the instructions
    before [GEP] pass and the recovered [arrayLength] and [desiredIndex]
    of [GEP] satisfy [0 <= arrayLength <= desiredIndex], the loop ends in
    [report_fatal_error] with the message made of these two numbers; the
    outcome, debug stream included, is the same whatever follows [GEP] in
    the work list. *)
Theorem violation_reported_and_run_ended :
  forall (pre : list GetElementPtrInst) (GEP : GetElementPtrInst)
         (s s1 : State) (arrayLength desiredIndex : Z),
    processWorkList pre s = (Done tt, s1) ->
    value (recoverArrayLength GEP) s1 = Done arrayLength ->
    value (recoverDesiredIndex GEP) s1 = Done desiredIndex ->
    0 <= arrayLength <= desiredIndex ->
    exists msg s',
      (forall post,
          processWorkList (pre ++ GEP :: post) s = (FatalError msg, s'))
      /\ msg = violationMessage desiredIndex arrayLength
      /\ contains msg (print_d desiredIndex)
      /\ contains msg (print_d arrayLength)
      /\ contains msg "Aborting".
Proof.
  intros pre GEP s s1 al di Hpre Ha Hb Hv.
  destruct (analyse_value GEP s1 al di Ha Hb) as [Hf _].
  specialize (Hf Hv).
  exists (violationMessage di al), (exec (analyse GEP) s1).
  split; [| split; [reflexivity | apply violationMessage_contains]].
  intros post. rewrite processWorkList_app.
  rewrite (bind_Done _ _ s tt s1 Hpre).
  simpl. apply bind_FatalError.
  unfold value in Hf. unfold exec.
  destruct (analyse GEP s1) as [r s2]. simpl in *. rewrite Hf. reflexivity.
Qed.

Lemma violation_reported_and_run_ended_witness :
  exists msg s',
    (forall post,
        processWorkList ([element 5 3] ++ element 5 5 :: post) initial
        = (FatalError msg, s'))
    /\ msg = violationMessage 5 5
    /\ contains msg (print_d 5)
    /\ contains msg (print_d 5)
    /\ contains msg "Aborting".
Proof.
  apply (violation_reported_and_run_ended
           [element 5 3] (element 5 5) initial
           (exec (processWorkList [element 5 3]) initial) 5 5).
  - reflexivity.
  - reflexivity.
  - reflexivity.
  - lia.
Defined.

Lemma substring_in_the_middle (pre sub post : string) :
  substring (String.length pre) (String.length sub) (pre ++ sub ++ post)
  = sub.
Proof.
  induction pre as [| c pre IH].
  - simpl. induction sub as [| c sub IH].
    + destruct post; reflexivity.
    + simpl. rewrite IH. reflexivity.
  - simpl. exact IH.
Qed.

Lemma index_None_not_contains (s sub : string) :
  index 0 sub s = None -> sub <> EmptyString -> ~ contains s sub.
Proof.
  intros Hi Hne (pre & post & E).
  apply (index_correct3 0 (String.length pre) sub s Hi Hne (Nat.le_0_l _)).
  rewrite E. apply substring_in_the_middle.
Qed.

(** C6, at
    [getelementptr [5 x i32], [5 x i32]* %a, i64 0, i64 4294967303]: the
    access is a violation and the run ends in a diagnostic, but the
    message names index 7, and the index 4294967303 is nowhere in it.  At
    [getelementptr [4294967301 x i32], [4294967301 x i32]* %a, i64 0, i64 7]
    the message names length 5, and the length 4294967301 is nowhere in
    it. *)
Theorem diagnostic_shows_narrowed_numbers :
  forall (s : State) (rest : list GetElementPtrInst),
    (getZExtValue (mkAPInt 64 4294967303) = 4294967303
     /\ value (processWorkList (element 5 4294967303 :: rest)) s
        = FatalError
            "Wrong assignment to index 7 (zero-based) while array has length 5! Aborting..."
     /\ ~ contains
          "Wrong assignment to index 7 (zero-based) while array has length 5! Aborting..."
          "4294967303")
    /\ (getPointerOperandType (element 4294967301 7)
        = PointerTy (ArrayTy 4294967301 (IntegerTy 32))
        /\ value (processWorkList (element 4294967301 7 :: rest)) s
           = FatalError
               "Wrong assignment to index 7 (zero-based) while array has length 5! Aborting..."
        /\ ~ contains
             "Wrong assignment to index 7 (zero-based) while array has length 5! Aborting..."
             "4294967301").
Proof.
  intros s rest. split; (split; [reflexivity | split]).
  - vm_compute. reflexivity.
  - apply index_None_not_contains; [reflexivity | discriminate].
  - vm_compute. reflexivity.
  - apply index_None_not_contains; [reflexivity | discriminate].
Qed.

(** The message at a violation, written out. *)
Example violation_message_5_5 :
  violationMessage 5 5
  = "Wrong assignment to index 5 (zero-based) while array has length 5! Aborting...".
Proof. reflexivity. Qed.

(** A fatal error in one function ends the run of the pass over the
    functions that follow. *)
Lemma fatal_error_ends_the_run F rest s msg s' :
  runOnFunction F s = (FatalError msg, s') ->
  runOnFunctions (F :: rest) s = (FatalError msg, s').
Proof. intros H. simpl. apply bind_FatalError. exact H. Qed.

(* ================================================================== *)
(** ** The declaration of [__assert] and the run on a function         *)
(* ================================================================== *)

Section RunOnFunction.

Lemma getAssertFunction_effect Mod s :
  value (getAssertFunction Mod) s = Done (assertDeclaration Mod)
  /\ Assert (exec (getAssertFunction Mod) s) = Assert s
  /\ DebugFlag (exec (getAssertFunction Mod) s) = DebugFlag s
  /\ dbgs (exec (getAssertFunction Mod) s) = dbgs s
  /\ forall m,
       modules (exec (getAssertFunction Mod) s) m
       = if Nat.eqb m Mod then modules s m ++ [assertDeclaration Mod]
         else modules s m.
Proof.
  repeat split. intros m. unfold exec, getAssertFunction.
  unfold bind, Function_Create, addFnAttr, setCallingConv, updateLast, ret.
  cbn [snd modules getParent getName getFunctionType getLinkage
       getAttributes getCallingConv blocks app].
  destruct (Nat.eqb m Mod); [| reflexivity].
  rewrite !removelast_last. reflexivity.
Qed.

(** Lines 36-45 lead to a state from which the work list is processed:
    with a stale field, one declaration was appended to the function's
    module and the field points to it; otherwise only the debug stream
    has changed. *)
Lemma runOnFunction_preamble F s :
  exists s2,
    runOnFunction F s = (processWorkList (collect F) ;; ret false) s2
    /\ DebugFlag s2 = DebugFlag s
    /\ dbgs s2 = dbgs (emit (DbgProcessingFunction (getName F)) s)
    /\ (if stale s F
        then Assert s2 = Some (assertDeclaration (getParent F))
             /\ forall m,
                  modules s2 m
                  = if Nat.eqb m (getParent F)
                    then modules s m ++ [assertDeclaration (getParent F)]
                    else modules s m
        else Assert s2 = Assert s /\ forall m, modules s2 m = modules s m).
Proof.
  set (s0 := emit (DbgProcessingFunction (getName F)) s).
  destruct (stale s F) eqn:Hs.
  - destruct (getAssertFunction_effect (getParent F) s0)
      as (Hv & Ha & Hd & Hl & Hm).
    unfold value, exec in *.
    destruct (getAssertFunction (getParent F) s0) as [r s1] eqn:Hg.
    simpl in *. subst r.
    exists (mkState (Some (assertDeclaration (getParent F)))
                    (modules s1) (DebugFlag s1) (dbgs s1)).
    split; [| split; [| split; [| split]]].
    + unfold runOnFunction.
      unfold bind at 1. unfold LLVM_DEBUG at 1. fold s0.
      unfold bind at 1. unfold readAssert at 1.
      unfold s0 at 1. rewrite emit_Assert. unfold stale in Hs. rewrite Hs.
      unfold bind at 1. unfold bind at 1. rewrite Hg. reflexivity.
    + simpl. rewrite Hd. apply emit_DebugFlag.
    + simpl. exact Hl.
    + reflexivity.
    + intros m. simpl. rewrite Hm. unfold s0. rewrite emit_modules.
      reflexivity.
  - exists s0. split; [| split; [| split; [| split]]].
    + unfold runOnFunction.
      unfold bind at 1. unfold LLVM_DEBUG at 1. fold s0.
      unfold bind at 1. unfold readAssert at 1.
      unfold s0 at 1. rewrite emit_Assert. unfold stale in Hs. rewrite Hs.
      reflexivity.
    + apply emit_DebugFlag.
    + reflexivity.
    + apply emit_Assert.
    + intros m. unfold s0. rewrite emit_modules. reflexivity.
Qed.

(** The run on a function: its result, and what it does to the field
    and to the modules. *)
Lemma runOnFunction_effect F s :
  (forall b, value (runOnFunction F) s = Done b -> b = false)
  /\ DebugFlag (exec (runOnFunction F) s) = DebugFlag s
  /\ (if stale s F
      then Assert (exec (runOnFunction F) s)
           = Some (assertDeclaration (getParent F))
           /\ forall m,
                modules (exec (runOnFunction F) s) m
                = if Nat.eqb m (getParent F)
                  then modules s m ++ [assertDeclaration (getParent F)]
                  else modules s m
      else Assert (exec (runOnFunction F) s) = Assert s
           /\ forall m, modules (exec (runOnFunction F) s) m = modules s m).
Proof.
  destruct (runOnFunction_preamble F s) as (s2 & E & Hd & _ & Hc).
  pose proof (processWorkList_onlyDebug (collect F) s2)
    as (Ha' & Hm' & Hd' & _).
  unfold value, exec in *. rewrite E. unfold bind.
  destruct (processWorkList (collect F) s2) as [[[] | msg | why] s3];
    simpl in *.
  - split; [intros b Hb; inversion Hb; reflexivity |].
    split; [congruence |].
    destruct (stale s F); destruct Hc as [Hc1 Hc2]; split;
      try congruence; intros m; rewrite Hm'; apply Hc2.
  - split; [intros b Hb; discriminate |].
    split; [congruence |].
    destruct (stale s F); destruct Hc as [Hc1 Hc2]; split;
      try congruence; intros m; rewrite Hm'; apply Hc2.
  - split; [intros b Hb; discriminate |].
    split; [congruence |].
    destruct (stale s F); destruct Hc as [Hc1 Hc2]; split;
      try congruence; intros m; rewrite Hm'; apply Hc2.
Qed.

End RunOnFunction.

(* ================================================================== *)
(** ** No mutation (C7)                                                *)
(* ================================================================== *)

(** C7: [runOnFunction] never returns [true], and every function of every
    module is afterwards where it was and what it was, its basic blocks
    and their instructions included; this holds for the function that was
    analysed. *)
Theorem function_not_modified :
  forall (F : Function) (s : State),
    value (runOnFunction F) s <> Done true
    /\ (forall b, value (runOnFunction F) s = Done b -> b = false)
    /\ (forall m k G,
           nth_error (modules s m) k = Some G ->
           nth_error (modules (exec (runOnFunction F) s) m) k = Some G)
    /\ (In F (modules s (getParent F)) ->
        In F (modules (exec (runOnFunction F) s) (getParent F))).
Proof.
  intros F s.
  destruct (runOnFunction_effect F s) as (Hb & _ & Hc).
  assert (Hnth : forall m k G,
             nth_error (modules s m) k = Some G ->
             nth_error (modules (exec (runOnFunction F) s) m) k = Some G).
  { intros m k G HG.
    destruct (stale s F); destruct Hc as [_ Hm]; rewrite Hm;
      [| exact HG].
    destruct (Nat.eqb m (getParent F)); [| exact HG].
    rewrite nth_error_app1; [exact HG |].
    apply nth_error_Some. rewrite HG. discriminate. }
  split; [| split; [exact Hb | split; [exact Hnth |]]].
  - intros H. apply Hb in H. discriminate.
  - intros HF. apply In_nth_error in HF. destruct HF as (k & Hk).
    apply (nth_error_In _ k). apply Hnth. exact Hk.
Qed.

Lemma function_not_modified_witness :
  value (runOnFunction twoAccesses) loaded = Done false
  /\ nth_error (modules (exec (runOnFunction twoAccesses) loaded) 0%nat) 0
     = Some twoAccesses
  /\ In twoAccesses
        (modules (exec (runOnFunction twoAccesses) loaded)
                 (getParent twoAccesses)).
Proof.
  destruct (function_not_modified twoAccesses loaded) as (_ & _ & Hn & Hi).
  split; [reflexivity | split].
  - apply Hn. reflexivity.
  - apply Hi. simpl. left. reflexivity.
Defined.

(* ================================================================== *)
(** ** One declaration per module (C8)                                 *)
(* ================================================================== *)

Section Declaration.

Variable Mod : ModulePtr.

Lemma stale_false_declaredIn F s :
  getParent F = Mod -> (stale s F = false <-> declaredIn Mod s).
Proof.
  intros HF. unfold stale, declaredIn. split.
  - destruct (Assert s) as [A |]; [| discriminate].
    intros H. apply negb_false_iff in H. apply Nat.eqb_eq in H.
    exists A. split; [reflexivity | congruence].
  - intros (A & HA & HP). rewrite HA. apply negb_false_iff.
    apply Nat.eqb_eq. congruence.
Qed.

Lemma exec_runOnFunctions_cons F rest s :
  exec (runOnFunctions (F :: rest)) s = exec (runOnFunction F) s
  \/ exec (runOnFunctions (F :: rest)) s
     = exec (runOnFunctions rest) (exec (runOnFunction F) s).
Proof.
  unfold exec. simpl. unfold bind.
  destruct (runOnFunction F s) as [[b | msg | why] s1]; simpl; auto.
Qed.

(** Once the field points into [Mod], runs on functions of [Mod] leave
    the field and all modules as they are. *)
Lemma runOnFunctions_reuse Fs s :
  Forall (fun F => getParent F = Mod) Fs ->
  declaredIn Mod s ->
  Assert (exec (runOnFunctions Fs) s) = Assert s
  /\ forall m, modules (exec (runOnFunctions Fs) s) m = modules s m.
Proof.
  intros HFs. revert s.
  induction HFs as [| F rest HF _ IH]; intros s Hs.
  - split; reflexivity.
  - destruct (runOnFunction_effect F s) as (_ & _ & Hc).
    apply (stale_false_declaredIn F s HF) in Hs as Hst.
    rewrite Hst in Hc. destruct Hc as [Ha Hm].
    destruct (exec_runOnFunctions_cons F rest s) as [E | E]; rewrite E.
    + split; assumption.
    + assert (Hs1 : declaredIn Mod (exec (runOnFunction F) s)).
      { destruct Hs as (A & HA & HP). exists A. split; congruence. }
      destruct (IH _ Hs1) as [Ha1 Hm1]. split; [congruence |].
      intros m. rewrite Hm1. apply Hm.
Qed.

Lemma callSites_assertDeclaration l :
  callSites (l ++ [assertDeclaration Mod]) = callSites l.
Proof.
  unfold callSites. rewrite flat_map_app. simpl. apply app_nil_r.
Qed.

End Declaration.

(** C8: over a run of the pass on functions that all belong to module
    [Mod], at most one function is appended to the list of [Mod], and it
    is the declaration of [__assert]; no other module changes; from a
    state whose field already points into [Mod] (as it does after the
    first of these runs) nothing is declared and the field is kept; and
    the call instructions of every module are those from before the run:
    the declaration has no caller. *)
Theorem assert_declared_once_per_module :
  forall (Fs : list Function) (Mod : ModulePtr) (s : State),
    Forall (fun F => getParent F = Mod) Fs ->
    (exists new,
        modules (exec (runOnFunctions Fs) s) Mod = modules s Mod ++ new
        /\ (List.length new <= 1)%nat
        /\ Forall (fun G => G = assertDeclaration Mod) new)
    /\ (forall m, m <> Mod ->
                  modules (exec (runOnFunctions Fs) s) m = modules s m)
    /\ (declaredIn Mod s ->
        Assert (exec (runOnFunctions Fs) s) = Assert s
        /\ forall m, modules (exec (runOnFunctions Fs) s) m = modules s m)
    /\ (Fs <> [] -> declaredIn Mod (exec (runOnFunctions Fs) s))
    /\ (forall m,
           callSites (modules (exec (runOnFunctions Fs) s) m)
           = callSites (modules s m)).
Proof.
  intros Fs Mod s HFs.
  assert (Hreuse : declaredIn Mod s ->
            Assert (exec (runOnFunctions Fs) s) = Assert s
            /\ forall m, modules (exec (runOnFunctions Fs) s) m = modules s m)
    by (apply runOnFunctions_reuse; exact HFs).
  destruct Fs as [| F rest].
  - split; [| split; [| split; [| split]]].
    + exists []. split; [symmetry; apply app_nil_r | split; [simpl; lia |]].
      constructor.
    + reflexivity.
    + exact Hreuse.
    + intros H. contradiction.
    + reflexivity.
  - inversion HFs as [| F' rest' HF Hrest]; subst.
    destruct (runOnFunction_effect F s) as (_ & _ & Hc).
    destruct (stale s F) eqn:Hst.
    + destruct Hc as [Ha Hm].
      assert (Hs1 : declaredIn (getParent F) (exec (runOnFunction F) s))
        by (eexists; split; [exact Ha | reflexivity]).
      assert (Hfin : Assert (exec (runOnFunctions (F :: rest)) s)
                     = Assert (exec (runOnFunction F) s)
                     /\ forall m,
                          modules (exec (runOnFunctions (F :: rest)) s) m
                          = modules (exec (runOnFunction F) s) m).
      { destruct (exec_runOnFunctions_cons F rest s) as [E | E]; rewrite E.
        - split; reflexivity.
        - apply (runOnFunctions_reuse (getParent F)); assumption. }
      destruct Hfin as [Hfa Hfm].
      split; [| split; [| split; [| split]]].
      * exists [assertDeclaration (getParent F)].
        rewrite Hfm, Hm, Nat.eqb_refl.
        split; [reflexivity | split; [simpl; lia |]].
        constructor; [reflexivity | constructor].
      * intros m Hne. rewrite Hfm, Hm.
        apply Nat.eqb_neq in Hne. rewrite Hne. reflexivity.
      * exact Hreuse.
      * intros _. destruct Hs1 as (A & HA & HP). exists A.
        split; congruence.
      * intros m. rewrite Hfm, Hm.
        destruct (Nat.eqb m (getParent F)); [| reflexivity].
        apply callSites_assertDeclaration.
    + assert (Hs : declaredIn (getParent F) s)
        by (apply (stale_false_declaredIn (getParent F) F s eq_refl);
            exact Hst).
      destruct (Hreuse Hs) as [Hfa Hfm].
      split; [| split; [| split; [| split]]].
      * exists []. rewrite Hfm.
        split; [symmetry; apply app_nil_r | split; [simpl; lia |]].
        constructor.
      * intros m _. apply Hfm.
      * exact Hreuse.
      * intros _. destruct Hs as (A & HA & HP). exists A.
        split; congruence.
      * intros m. rewrite Hfm. reflexivity.
Qed.

Lemma assert_declared_once_per_module_witness :
  Forall (fun F => getParent F = 0%nat) [twoAccesses; oneAccess]
  /\ ((exists new,
          modules (exec (runOnFunctions [twoAccesses; oneAccess]) loaded) 0%nat
          = modules loaded 0%nat ++ new
          /\ (List.length new <= 1)%nat
          /\ Forall (fun G => G = assertDeclaration 0%nat) new)
      /\ (forall m, m <> 0%nat ->
            modules (exec (runOnFunctions [twoAccesses; oneAccess]) loaded) m
            = modules loaded m)
      /\ (declaredIn 0%nat loaded ->
          Assert (exec (runOnFunctions [twoAccesses; oneAccess]) loaded)
          = Assert loaded
          /\ forall m,
               modules (exec (runOnFunctions [twoAccesses; oneAccess]) loaded) m
               = modules loaded m)
      /\ ([twoAccesses; oneAccess] <> [] ->
          declaredIn 0%nat (exec (runOnFunctions [twoAccesses; oneAccess]) loaded))
      /\ (forall m,
            callSites
              (modules (exec (runOnFunctions [twoAccesses; oneAccess]) loaded) m)
            = callSites (modules loaded m))).
Proof.
  split.
  - repeat constructor.
  - apply (assert_declared_once_per_module
             [twoAccesses; oneAccess] 0%nat loaded).
    repeat constructor.
Defined.

(** The run of the two functions above, written out: one declaration. *)
Example two_functions_one_declaration :
  modules (exec (runOnFunctions [twoAccesses; oneAccess]) loaded) 0%nat
  = [twoAccesses; oneAccess; assertDeclaration 0%nat].
Proof. reflexivity. Qed.

(** Outside the premise of C8: when a function of another module is run
    in between, the field is stale again and a second function is
    appended to module 0, which then holds four. *)
Example declared_again_after_another_module :
  List.length
    (modules (exec (runOnFunctions
                      [twoAccesses; voidFn "h" 1%nat []; oneAccess]) loaded)
             0%nat)
  = 4%nat.
Proof. reflexivity. Qed.

(* ================================================================== *)
(** ** The collector (C9)                                              *)
(* ================================================================== *)

Section Collector.

Lemma collect_block (BB : BasicBlock) (WorkList : list GetElementPtrInst) :
  fold_left
    (fun WorkList BI =>
       match dyn_cast_GetElementPtrInst BI with
       | Some GEP => WorkList ++ [GEP]
       | None => WorkList
       end) BB WorkList
  = WorkList ++ gepsOfBlock BB.
Proof.
  revert WorkList. induction BB as [| BI BB IH]; intros WorkList.
  - simpl. symmetry. apply app_nil_r.
  - simpl fold_left. rewrite IH.
    destruct BI as [GEP | callee args | opcode operands]; simpl.
    + rewrite <- app_assoc. reflexivity.
    + reflexivity.
    + reflexivity.
Qed.

Lemma collect_blocks (BBs : list BasicBlock)
    (WorkList : list GetElementPtrInst) :
  fold_left
    (fun WorkList FI =>
       fold_left
         (fun WorkList BI =>
            match dyn_cast_GetElementPtrInst BI with
            | Some GEP => WorkList ++ [GEP]
            | None => WorkList
            end) FI WorkList) BBs WorkList
  = WorkList ++ flat_map gepsOfBlock BBs.
Proof.
  revert WorkList. induction BBs as [| FI BBs IH]; intros WorkList.
  - simpl. symmetry. apply app_nil_r.
  - simpl fold_left. rewrite IH, collect_block.
    simpl. rewrite <- app_assoc. reflexivity.
Qed.

Lemma collect_gepsInOrder F : collect F = gepsInOrder F.
Proof. unfold collect, gepsInOrder. apply collect_blocks. Qed.

Lemma visited_app l1 l2 : visited (l1 ++ l2) = visited l1 ++ visited l2.
Proof. apply flat_map_app. Qed.

(** With [-debug] on, the analysis of an instruction announces that
    instruction and no other. *)
Lemma analyse_visited GEP s :
  DebugFlag s = true ->
  DebugFlag (exec (analyse GEP) s) = true
  /\ exists new,
       dbgs (exec (analyse GEP) s) = dbgs s ++ new /\ visited new = [GEP].
Proof.
  intros Hd. destruct s as [A mods flag log]. simpl in Hd. subst flag.
  unfold exec, analyse, recoverArrayLength, recoverDesiredIndex,
    decisionPolicy.
  destruct (dyn_cast_PointerType (getPointerOperandType GEP)) as [pt |];
    [destruct (dyn_cast_ArrayType (getPointerElementType pt)) as [at' |] |];
    (destruct (hasAllConstantIndices GEP);
     [destruct (getOperand GEP (getNumIndices GEP)) as [op |];
      [destruct (dyn_cast_ConstantInt op) as [c |] |] |]);
    unfold bind, LLVM_DEBUG, ret, undefined, report_fatal_error, emit;
    cbn [fst snd DebugFlag dbgs Assert modules];
    repeat match goal with
           | |- context [if ?b then _ else _] => destruct b
           end;
    cbn [fst snd DebugFlag dbgs Assert modules];
    (split; [reflexivity |]);
    rewrite <- ?app_assoc; eexists; (split; [reflexivity | reflexivity]).
Qed.

(** The analyser announces a prefix of the work list, and the whole of
    it when the loop finishes. *)
Lemma processWorkList_visited WorkList s :
  DebugFlag s = true ->
  exists new,
    dbgs (exec (processWorkList WorkList) s) = dbgs s ++ new
    /\ (exists rest, WorkList = visited new ++ rest)
    /\ (value (processWorkList WorkList) s = Done tt ->
        visited new = WorkList).
Proof.
  revert s. induction WorkList as [| GEP rest IH]; intros s Hd.
  - exists []. split; [symmetry; apply app_nil_r |].
    split; [exists []; reflexivity | reflexivity].
  - destruct (analyse_visited GEP s Hd) as (Hd1 & n1 & Hn1 & Hv1).
    unfold exec, value in *. simpl. unfold bind.
    destruct (analyse GEP s) as [[[] | msg | why] s1]; simpl in *.
    + destruct (IH s1 Hd1) as (n2 & Hn2 & (r2 & Hr2) & Hv2).
      exists (n1 ++ n2). rewrite visited_app, Hv1.
      split; [rewrite Hn2, Hn1; symmetry; apply app_assoc |].
      split.
      * exists r2. simpl. f_equal. exact Hr2.
      * intros H. simpl. f_equal. apply Hv2. exact H.
    + exists n1. rewrite Hv1.
      split; [exact Hn1 | split; [exists rest; reflexivity | discriminate]].
    + exists n1. rewrite Hv1.
      split; [exact Hn1 | split; [exists rest; reflexivity | discriminate]].
Qed.

End Collector.

(** C9: the work list holds the pointer-indexing instructions of the
    function, in block order and then in the order of the block, and
    nothing else (it is empty when there is none); with [-debug] on, the
    instructions the analyser announces while it runs are a prefix of that
    work list, and all of it when the run finishes: no entry is added,
    dropped or replaced on the way. *)
Theorem worklist_is_the_geps_in_order :
  forall (F : Function) (s : State),
    DebugFlag s = true ->
    collect F = gepsInOrder F
    /\ (forall GEP, In GEP (collect F) <->
                    exists BB, In BB (blocks F) /\ In (GetElementPtr GEP) BB)
    /\ exists new,
         dbgs (exec (runOnFunction F) s)
         = dbgs s ++ DbgProcessingFunction (getName F) :: new
         /\ (exists rest, collect F = visited new ++ rest)
         /\ (forall b, value (runOnFunction F) s = Done b ->
                       visited new = collect F).
Proof.
  intros F s Hd. split; [apply collect_gepsInOrder | split].
  - intros GEP. rewrite collect_gepsInOrder. unfold gepsInOrder.
    rewrite in_flat_map. split.
    + intros (BB & HBB & Hin). exists BB. split; [exact HBB |].
      unfold gepsOfBlock in Hin. apply in_flat_map in Hin.
      destruct Hin as (I & HI & Hg).
      destruct I as [g | callee args | opcode operands]; simpl in Hg;
        try contradiction.
      destruct Hg as [Hg | []]. subst g. exact HI.
    + intros (BB & HBB & Hin). exists BB. split; [exact HBB |].
      unfold gepsOfBlock. apply in_flat_map.
      exists (GetElementPtr GEP). split; [exact Hin | left; reflexivity].
  - destruct (runOnFunction_preamble F s) as (s2 & E & Hd2 & Hl2 & _).
    rewrite Hd in Hd2. rewrite (emit_dbgs_on _ s Hd) in Hl2.
    destruct (processWorkList_visited (collect F) s2 Hd2)
      as (new & Hn & Hr & Hv).
    exists new. unfold exec, value in *. rewrite E. unfold bind.
    destruct (processWorkList (collect F) s2) as [[[] | msg | why] s3];
      simpl in *.
    + split; [rewrite Hn, Hl2, <- app_assoc; reflexivity |].
      split; [exact Hr | intros b _; apply Hv; reflexivity].
    + split; [rewrite Hn, Hl2, <- app_assoc; reflexivity |].
      split; [exact Hr | intros b Hb; discriminate].
    + split; [rewrite Hn, Hl2, <- app_assoc; reflexivity |].
      split; [exact Hr | intros b Hb; discriminate].
Qed.

Lemma worklist_is_the_geps_in_order_witness :
  DebugFlag loaded = true
  /\ collect twoAccesses = [element 5 3; element 5 4]
  /\ exists new,
       dbgs (exec (runOnFunction twoAccesses) loaded)
       = dbgs loaded ++ DbgProcessingFunction (getName twoAccesses) :: new
       /\ (exists rest, collect twoAccesses = visited new ++ rest)
       /\ (forall b, value (runOnFunction twoAccesses) loaded = Done b ->
                     visited new = collect twoAccesses).
Proof.
  split; [reflexivity | split; [reflexivity |]].
  apply (worklist_is_the_geps_in_order twoAccesses loaded). reflexivity.
Defined.

(* ================================================================== *)
(** ** Further properties: what the outcome depends on                *)
(* ================================================================== *)

Lemma analyse_value_any_state GEP s s' :
  value (analyse GEP) s = value (analyse GEP) s'.
Proof.
  destruct (recoverArrayLength_Done GEP s) as (al & Hl & _).
  assert (Ha : value (recoverArrayLength GEP) s = Done al)
    by (unfold value; rewrite Hl; reflexivity).
  assert (Ha' : value (recoverArrayLength GEP) s' = Done al)
    by (rewrite <- (recoverArrayLength_value GEP s s'); exact Ha).
  destruct (value (recoverDesiredIndex GEP) s) as [di | msg | why] eqn:Hb.
  - assert (Hb' : value (recoverDesiredIndex GEP) s' = Done di)
      by (rewrite <- (recoverDesiredIndex_value GEP s s'); exact Hb).
    destruct (analyse_value GEP s al di Ha Hb) as [Hv Hn].
    destruct (analyse_value GEP s' al di Ha' Hb') as [Hv' Hn'].
    destruct (Z_le_dec 0 al) as [H0 | H0];
      [destruct (Z_le_dec al di) as [H1 | H1] |].
    + rewrite Hv, Hv' by lia. reflexivity.
    + rewrite Hn, Hn' by lia. reflexivity.
    + rewrite Hn, Hn' by lia. reflexivity.
  - exfalso. destruct (recoverDesiredIndex_onlyDebug GEP s) as (_ & Hnf).
    apply (Hnf msg). exact Hb.
  - assert (Hb' : value (recoverDesiredIndex GEP) s' = Undefined why)
      by (rewrite <- (recoverDesiredIndex_value GEP s s'); exact Hb).
    rewrite (analyse_index_fault GEP s why Hb).
    rewrite (analyse_index_fault GEP s' why Hb'). reflexivity.
Qed.

Lemma processWorkList_value_cons GEP rest s :
  value (processWorkList (GEP :: rest)) s
  = match value (analyse GEP) s with
    | Done _ => value (processWorkList rest) (exec (analyse GEP) s)
    | FatalError msg => FatalError msg
    | Undefined why => Undefined why
    end.
Proof.
  unfold value, exec. simpl. unfold bind.
  destruct (analyse GEP s) as [[[] | msg | why] s1]; reflexivity.
Qed.

Lemma processWorkList_value_any_state WorkList s s' :
  value (processWorkList WorkList) s = value (processWorkList WorkList) s'.
Proof.
  revert s s'. induction WorkList as [| GEP rest IH]; intros s s'.
  - reflexivity.
  - rewrite !processWorkList_value_cons.
    rewrite (analyse_value_any_state GEP s s').
    destruct (value (analyse GEP) s'); try reflexivity. apply IH.
Qed.

Lemma runOnFunction_value F s :
  value (runOnFunction F) s
  = match value (processWorkList (collect F)) s with
    | Done _ => Done false
    | FatalError msg => FatalError msg
    | Undefined why => Undefined why
    end.
Proof.
  destruct (runOnFunction_preamble F s) as (s2 & E & _).
  rewrite (processWorkList_value_any_state (collect F) s s2).
  unfold value. rewrite E. unfold bind.
  destruct (processWorkList (collect F) s2) as [[[] | msg | why] s3];
    reflexivity.
Qed.

Lemma processWorkList_Done_iff WorkList s :
  value (processWorkList WorkList) s = Done tt <-> allPass WorkList s.
Proof.
  unfold allPass. induction WorkList as [| GEP rest IH].
  - split; [constructor | reflexivity].
  - rewrite processWorkList_value_cons.
    rewrite (processWorkList_value_any_state rest _ s). split.
    + intros H. destruct (value (analyse GEP) s) as [[] | msg | why] eqn:E;
        try discriminate.
      constructor; [exact E | apply IH; exact H].
    + intros H. inversion H as [| g r Hg Hr]; subst.
      rewrite Hg. apply IH. exact Hr.
Qed.

(** X1: whether the pass finishes, raises a diagnostic or faults on a
    function, and which diagnostic, depends on the function alone: not on
    the [Assert] field of the pass object, not on the modules, not on the
    debug flag or stream. *)
Theorem outcome_depends_on_function_only :
  forall (F : Function) (s s' : State),
    value (runOnFunction F) s = value (runOnFunction F) s'.
Proof.
  intros F s s'. rewrite !runOnFunction_value.
  rewrite (processWorkList_value_any_state (collect F) s s'). reflexivity.
Qed.

(** X2: the run on a function returns (with [false]) exactly when every
    collected instruction is analysed without diagnostic and without
    fault. *)
Theorem runOnFunction_returns_iff_all_pass :
  forall (F : Function) (s : State),
    value (runOnFunction F) s = Done false <-> allPass (collect F) s.
Proof.
  intros F s. rewrite <- processWorkList_Done_iff, runOnFunction_value.
  destruct (value (processWorkList (collect F)) s) as [[] | msg | why];
    split; intros H; try discriminate; reflexivity.
Qed.

(** X3: a function in which no instruction is a [getelementptr] (one
    without blocks among them) is passed: the run returns [false]. *)
Theorem function_without_gep_passes :
  forall (F : Function) (s : State),
    (forall BB I, In BB (blocks F) -> In I BB ->
                  dyn_cast_GetElementPtrInst I = None) ->
    collect F = [] /\ value (runOnFunction F) s = Done false.
Proof.
  intros F s H.
  assert (E : collect F = []).
  { rewrite collect_gepsInOrder. unfold gepsInOrder.
    destruct (flat_map gepsOfBlock (blocks F)) as [| g l] eqn:Eg;
      [reflexivity | exfalso].
    assert (Hin : In g (flat_map gepsOfBlock (blocks F)))
      by (rewrite Eg; left; reflexivity).
    apply in_flat_map in Hin. destruct Hin as (BB & HBB & Hg).
    unfold gepsOfBlock in Hg. apply in_flat_map in Hg.
    destruct Hg as (I & HI & Hg).
    specialize (H BB I HBB HI).
    destruct I; simpl in Hg; try contradiction. discriminate. }
  split; [exact E |].
  apply runOnFunction_returns_iff_all_pass. rewrite E. constructor.
Qed.

Lemma function_without_gep_passes_witness :
  collect (voidFn "h" 0%nat [[OtherInst "ret" []]]) = []
  /\ value (runOnFunction (voidFn "h" 0%nat [[OtherInst "ret" []]])) initial
     = Done false.
Proof.
  apply (function_without_gep_passes
           (voidFn "h" 0%nat [[OtherInst "ret" []]]) initial).
  intros BB I HBB HI. simpl in HBB. destruct HBB as [<- | []].
  simpl in HI. destruct HI as [<- | []]. reflexivity.
Defined.

Lemma recovered_values_in_int GEP s al di :
  value (recoverArrayLength GEP) s = Done al ->
  value (recoverDesiredIndex GEP) s = Done di ->
  - 2 ^ 31 <= al <= INT_MAX /\ - 2 ^ 31 <= di <= INT_MAX.
Proof.
  intros Ha Hb. split.
  - destruct (lengthKnown_dec GEP) as [(L & elt & H) | H].
    + unfold value in Ha. rewrite (recoverArrayLength_array GEP L elt s H) in Ha.
      simpl in Ha. inversion Ha. apply to_int_range.
    + rewrite (length_unknown_otherwise GEP s H) in Ha. inversion Ha.
      unfold INT_MAX. lia.
  - unfold value, recoverDesiredIndex in Hb.
    destruct (hasAllConstantIndices GEP).
    + unfold bind at 1 in Hb. unfold LLVM_DEBUG at 1 in Hb.
      destruct (getOperand GEP (getNumIndices GEP)) as [op |];
        [| discriminate].
      destruct (dyn_cast_ConstantInt op) as [c |]; [| discriminate].
      simpl in Hb. inversion Hb. apply to_int_range.
    + simpl in Hb. inversion Hb. unfold INT_MAX. lia.
Qed.

(** X4: a diagnostic raised by the run on a function is that of the
    first instruction, in the order of the work list, whose analysis does
    not pass: everything before it passes, its recovered length and index
    satisfy [0 <= arrayLength <= desiredIndex <= INT_MAX], and the message
    is the one made of these two numbers. *)
Theorem diagnostic_is_of_first_violation :
  forall (F : Function) (s : State) (msg : string),
    value (runOnFunction F) s = FatalError msg ->
    exists pre GEP post arrayLength desiredIndex,
      collect F = pre ++ GEP :: post
      /\ allPass pre s
      /\ value (recoverArrayLength GEP) s = Done arrayLength
      /\ value (recoverDesiredIndex GEP) s = Done desiredIndex
      /\ 0 <= arrayLength <= desiredIndex
      /\ desiredIndex <= INT_MAX
      /\ msg = violationMessage desiredIndex arrayLength.
Proof.
  intros F s msg H. rewrite runOnFunction_value in H.
  destruct (value (processWorkList (collect F)) s) as [[] | m | why] eqn:E;
    try discriminate.
  inversion H; subst m.
  destruct (processWorkList_FatalError (collect F) s msg E)
    as (pre & g & post & s1 & Hw & Hp & Hg).
  rewrite (analyse_value_any_state g s1 s) in Hg.
  destruct (analyse_FatalError g s msg Hg) as (al & di & Ha & Hb & Hr & Hm).
  exists pre, g, post, al, di.
  destruct (recovered_values_in_int g s al di Ha Hb) as [_ Hdi].
  repeat split; try assumption; try lia.
  apply processWorkList_Done_iff. unfold value. rewrite Hp. reflexivity.
Qed.

Lemma diagnostic_is_of_first_violation_witness :
  exists pre GEP post arrayLength desiredIndex,
    collect violatingFunction = pre ++ GEP :: post
    /\ allPass pre initial
    /\ value (recoverArrayLength GEP) initial = Done arrayLength
    /\ value (recoverDesiredIndex GEP) initial = Done desiredIndex
    /\ 0 <= arrayLength <= desiredIndex
    /\ desiredIndex <= INT_MAX
    /\ violationMessage 7 5 = violationMessage desiredIndex arrayLength.
Proof.
  apply (diagnostic_is_of_first_violation violatingFunction initial
           (violationMessage 7 5)).
  reflexivity.
Defined.

(* ================================================================== *)
(** ** Further properties: the recoveries and the fault               *)
(* ================================================================== *)

(** X5: an instruction without index whose pointer operand is no
    [ConstantInt] (as no pointer is) makes the analysis dereference the
    null result of the downcast of line 77, whatever the type of the
    pointer operand; nothing that follows it in the work list is
    analysed. *)
Theorem analysis_faults_without_index :
  forall (GEP : GetElementPtrInst) (s : State)
         (rest : list GetElementPtrInst),
    indices GEP = [] ->
    dyn_cast_ConstantInt (getPointerOperand GEP) = None ->
    value (recoverDesiredIndex GEP) s = Undefined NullPointerDereference
    /\ value (analyse GEP) s = Undefined NullPointerDereference
    /\ value (processWorkList (GEP :: rest)) s
       = Undefined NullPointerDereference.
Proof.
  intros GEP s rest Hi Hp.
  assert (Hr : value (recoverDesiredIndex GEP) s
               = Undefined NullPointerDereference)
    by (unfold value; rewrite (recoverDesiredIndex_no_index GEP s Hi Hp);
        reflexivity).
  pose proof (analyse_index_fault GEP s _ Hr) as Ha.
  split; [exact Hr | split; [exact Ha |]].
  rewrite processWorkList_value_cons, Ha. reflexivity.
Qed.

Lemma analysis_faults_without_index_witness :
  value (analyse (mkGEP (OtherValue (PointerTy (StructTy [IntegerTy 32]))
                                    "s") [])) initial
  = Undefined NullPointerDereference.
Proof.
  destruct (analysis_faults_without_index
              (mkGEP (OtherValue (PointerTy (StructTy [IntegerTy 32])) "s") [])
              initial [element 5 3]) as (_ & H & _);
    [reflexivity | reflexivity |].
  exact H.
Defined.

(** X6: the length recovery always finishes, with a number in the range
    of [int]: the declared element count when the pointer operand points
    to an array of at most [INT_MAX] elements (that count wrapped to 32
    bits beyond), and -1 for every other type of the pointer operand (a
    pointer to a scalar, to a struct, to a pointer to an array, a vector
    of pointers). *)
Theorem length_recovery_characterised :
  forall (GEP : GetElementPtrInst) (s : State),
    exists arrayLength,
      value (recoverArrayLength GEP) s = Done arrayLength
      /\ - 2 ^ 31 <= arrayLength <= INT_MAX
      /\ (forall L elt,
             getPointerOperandType GEP = PointerTy (ArrayTy L elt) ->
             arrayLength = to_int L
             /\ (0 <= L <= INT_MAX -> arrayLength = L))
      /\ (~ lengthKnown GEP -> arrayLength = -1).
Proof.
  intros GEP s.
  destruct (lengthKnown_dec GEP) as [(L & elt & H) | H].
  - exists (to_int L). split; [| split; [apply to_int_range | split]].
    + unfold value. rewrite (recoverArrayLength_array GEP L elt s H).
      reflexivity.
    + intros L' elt' H'. rewrite H in H'. inversion H'; subst.
      split; [reflexivity | apply to_int_small].
    + intros Hn. exfalso. apply Hn. exists L, elt. exact H.
  - exists (-1). split; [| split; [unfold INT_MAX; lia | split]].
    + apply length_unknown_otherwise. exact H.
    + intros L elt H'. exfalso. apply H. exists L, elt. exact H'.
    + reflexivity.
Qed.

Lemma length_recovery_characterised_witness :
  value (recoverArrayLength (element 5 3)) initial = Done 5
  /\ value (recoverArrayLength
              (mkGEP (OtherValue
                        (PointerTy (PointerTy (ArrayTy 5 (IntegerTy 32))))
                        "q") [i64 0])) initial = Done (-1).
Proof.
  destruct (length_recovery_characterised (element 5 3) initial)
    as (al & Hv & _ & Hk & _).
  destruct (Hk 5 (IntegerTy 32)) as [_ H5]; [reflexivity |].
  rewrite H5 in Hv by (unfold INT_MAX; lia).
  destruct (length_recovery_characterised
              (mkGEP (OtherValue
                        (PointerTy (PointerTy (ArrayTy 5 (IntegerTy 32))))
                        "q") [i64 0]) initial)
    as (al' & Hv' & _ & _ & Hu).
  rewrite Hu in Hv' by (intros (L & elt & H); discriminate).
  split; [exact Hv | exact Hv'].
Defined.

(** X7: with at least one index the index recovery finishes, with a
    number in the range of [int]: -1 when some index is not a constant;
    otherwise the value of the last index operand when it is at most
    [INT_MAX], and that value wrapped to 32 bits beyond.  The indices
    before the last one are not looked at. *)
Theorem index_recovery_with_an_index :
  forall (GEP : GetElementPtrInst) (s : State),
    indices GEP <> [] ->
    exists desiredIndex,
      value (recoverDesiredIndex GEP) s = Done desiredIndex
      /\ - 2 ^ 31 <= desiredIndex <= INT_MAX
      /\ (hasAllConstantIndices GEP = false -> desiredIndex = -1)
      /\ (hasAllConstantIndices GEP = true ->
          exists front c,
            indices GEP = front ++ [ConstantInt c]
            /\ desiredIndex = to_int (getZExtValue c)
            /\ (0 <= getZExtValue c <= INT_MAX ->
                desiredIndex = getZExtValue c)).
Proof.
  intros GEP s Hne.
  destruct (hasAllConstantIndices GEP) eqn:Hc.
  - destruct (downcast_succeeds_with_an_index GEP Hne Hc)
      as (front & c & Hf & _).
    exists (to_int (getZExtValue c)).
    split; [| split; [apply to_int_range | split]].
    + unfold value.
      rewrite (recoverDesiredIndex_constant GEP front c s Hf Hc).
      reflexivity.
    + discriminate.
    + intros _. exists front, c.
      split; [exact Hf | split; [reflexivity | apply to_int_small]].
  - exists (-1). split; [| split; [unfold INT_MAX; lia | split]].
    + apply index_unknown_when_not_constant. exact Hc.
    + reflexivity.
    + discriminate.
Qed.

Lemma index_recovery_with_an_index_witness :
  indices (element 5 3) <> []
  /\ exists desiredIndex,
       value (recoverDesiredIndex (element 5 3)) initial = Done desiredIndex
       /\ - 2 ^ 31 <= desiredIndex <= INT_MAX
       /\ (hasAllConstantIndices (element 5 3) = false -> desiredIndex = -1)
       /\ (hasAllConstantIndices (element 5 3) = true ->
           exists front c,
             indices (element 5 3) = front ++ [ConstantInt c]
             /\ desiredIndex = to_int (getZExtValue c)
             /\ (0 <= getZExtValue c <= INT_MAX ->
                 desiredIndex = getZExtValue c)).
Proof.
  split; [discriminate |].
  apply (index_recovery_with_an_index (element 5 3) initial). discriminate.
Defined.

Lemma to_int_negative (u : Z) : 2 ^ 31 <= u mod 2 ^ 32 -> to_int u < 0.
Proof.
  intros H. unfold to_int.
  assert (Hb : 0 <= u mod 2 ^ 32 < 2 ^ 32) by (apply Z.mod_pos_bound; lia).
  destruct (u mod 2 ^ 32 <? 2 ^ 31) eqn:E.
  - apply Z.ltb_lt in E. lia.
  - lia.
Qed.

(** X8: an instruction whose last index is a constant with bit 31 set in
    the low 32 bits of its zero-extended value (the [i64 -1] of [a[-1]]
    is one) is never flagged, whatever the pointer operand is. *)
Theorem wrapped_index_is_never_flagged :
  forall (GEP : GetElementPtrInst) (front : list Value) (c : APInt)
         (s : State),
    indices GEP = front ++ [ConstantInt c] ->
    2 ^ 31 <= getZExtValue c mod 2 ^ 32 ->
    value (analyse GEP) s = Done tt.
Proof.
  intros GEP front c s Hf Hw.
  destruct (recoverArrayLength_Done GEP s) as (al & Hl & _).
  assert (Ha : value (recoverArrayLength GEP) s = Done al)
    by (unfold value; rewrite Hl; reflexivity).
  destruct (hasAllConstantIndices GEP) eqn:Hc.
  - assert (Hb : value (recoverDesiredIndex GEP) s
                 = Done (to_int (getZExtValue c)))
      by (unfold value;
          rewrite (recoverDesiredIndex_constant GEP front c s Hf Hc);
          reflexivity).
    pose proof (to_int_negative _ Hw) as Hn.
    apply (analyse_value GEP s al _ Ha Hb). lia.
  - pose proof (index_unknown_when_not_constant GEP s Hc) as Hb.
    apply (analyse_value GEP s al (-1) Ha Hb). lia.
Qed.

Lemma wrapped_index_is_never_flagged_witness :
  indices (element 5 (-1)) = [i64 0] ++ [ConstantInt (mkAPInt 64 (-1))]
  /\ 2 ^ 31 <= getZExtValue (mkAPInt 64 (-1)) mod 2 ^ 32
  /\ value (analyse (element 5 (-1))) initial = Done tt.
Proof.
  split; [reflexivity | split; [vm_compute; discriminate |]].
  apply (wrapped_index_is_never_flagged
           (element 5 (-1)) [i64 0] (mkAPInt 64 (-1)) initial).
  - reflexivity.
  - vm_compute. discriminate.
Defined.

(** X9: of the indices only the low 32 bits of the last one count.  Two
    instructions with pointer operands of the same type and constant
    indices, whose last indices agree modulo 2^32, have the same outcome,
    whatever their other indices are. *)
Theorem last_index_modulo_2_32_decides :
  forall (GEP1 GEP2 : GetElementPtrInst) (front1 front2 : list Value)
         (c1 c2 : APInt) (s : State),
    getPointerOperandType GEP1 = getPointerOperandType GEP2 ->
    indices GEP1 = front1 ++ [ConstantInt c1] ->
    indices GEP2 = front2 ++ [ConstantInt c2] ->
    hasAllConstantIndices GEP1 = true ->
    hasAllConstantIndices GEP2 = true ->
    getZExtValue c1 mod 2 ^ 32 = getZExtValue c2 mod 2 ^ 32 ->
    value (analyse GEP1) s = value (analyse GEP2) s.
Proof.
  intros GEP1 GEP2 front1 front2 c1 c2 s Ht H1 H2 Hc1 Hc2 Hm.
  destruct (recoverArrayLength_Done GEP1 s) as (al & Hl & _).
  assert (Ha1 : value (recoverArrayLength GEP1) s = Done al)
    by (unfold value; rewrite Hl; reflexivity).
  assert (Ha2 : value (recoverArrayLength GEP2) s = Done al).
  { rewrite <- Ha1. unfold value, recoverArrayLength. rewrite Ht.
    reflexivity. }
  assert (Hb1 : value (recoverDesiredIndex GEP1) s
                = Done (to_int (getZExtValue c1)))
    by (unfold value;
        rewrite (recoverDesiredIndex_constant GEP1 front1 c1 s H1 Hc1);
        reflexivity).
  assert (Hb2 : value (recoverDesiredIndex GEP2) s
                = Done (to_int (getZExtValue c1))).
  { unfold value.
    rewrite (recoverDesiredIndex_constant GEP2 front2 c2 s H2 Hc2).
    simpl. unfold to_int. rewrite Hm. reflexivity. }
  destruct (analyse_value GEP1 s al _ Ha1 Hb1) as [Hv1 Hn1].
  destruct (analyse_value GEP2 s al _ Ha2 Hb2) as [Hv2 Hn2].
  destruct (Z_le_dec 0 al) as [H0 | H0];
    [destruct (Z_le_dec al (to_int (getZExtValue c1))) as [Hle | Hle] |].
  - rewrite Hv1, Hv2 by lia. reflexivity.
  - rewrite Hn1, Hn2 by lia. reflexivity.
  - rewrite Hn1, Hn2 by lia. reflexivity.
Qed.

Lemma last_index_modulo_2_32_decides_witness :
  value (analyse (element 5 7)) initial
  = value (analyse (mkGEP (arrayPtr 5) [i64 9; i64 4294967303])) initial.
Proof.
  apply (last_index_modulo_2_32_decides
           (element 5 7) (mkGEP (arrayPtr 5) [i64 9; i64 4294967303])
           [i64 0] [i64 9] (mkAPInt 64 7) (mkAPInt 64 4294967303) initial);
    reflexivity.
Defined.

Lemma never_raises_when_unknown_witness :
  (~ lengthKnown (mkGEP scalarPtr [i64 7])
   \/ hasAllConstantIndices (mkGEP scalarPtr [i64 7]) = false)
  /\ forall msg,
       value (analyse (mkGEP scalarPtr [i64 7])) initial <> FatalError msg.
Proof.
  assert (H : ~ lengthKnown (mkGEP scalarPtr [i64 7])
              \/ hasAllConstantIndices (mkGEP scalarPtr [i64 7]) = false)
    by (left; intros (L & elt & E); discriminate).
  split; [exact H |].
  apply (never_raises_when_unknown (mkGEP scalarPtr [i64 7]) initial H).
Defined.

Lemma passed_over_with_an_index_witness :
  value (analyse (mkGEP (arrayPtr 5) [i64 0; OtherValue (IntegerTy 64) "i"]))
        initial = Done tt
  /\ onlyDebug initial
       (exec (analyse
                (mkGEP (arrayPtr 5) [i64 0; OtherValue (IntegerTy 64) "i"]))
             initial).
Proof.
  apply (passed_over_with_an_index
           (mkGEP (arrayPtr 5) [i64 0; OtherValue (IntegerTy 64) "i"])
           initial).
  - right. reflexivity.
  - discriminate.
Defined.

(* ================================================================== *)
(** ** Further properties: the declaration and the debug stream     *)
(* ================================================================== *)

(** X12: [getAssertFunction] always finishes; what it returns is a
    function of module [Mod], of type [void (i8*, i8*, i32, ...)], with
    external linkage, the attribute [noreturn], the C calling convention
    and no body; exactly this function is appended to the list of [Mod],
    and the other modules, the field [Assert] and the debug stream are
    left as they are. *)
Theorem assert_declaration_shape :
  forall (Mod : ModulePtr) (s : State),
    exists D,
      value (getAssertFunction Mod) s = Done D
      /\ getParent D = Mod
      /\ getFunctionType D
         = FunctionTy VoidTy
                      [PointerTy (IntegerTy 8); PointerTy (IntegerTy 8);
                       IntegerTy 32] true
      /\ getLinkage D = ExternalLinkage
      /\ getAttributes D = [NoReturn]
      /\ getCallingConv D = CC_C
      /\ isDeclaration D = true
      /\ modules (exec (getAssertFunction Mod) s) Mod = modules s Mod ++ [D]
      /\ (forall m, m <> Mod ->
                    modules (exec (getAssertFunction Mod) s) m = modules s m)
      /\ Assert (exec (getAssertFunction Mod) s) = Assert s
      /\ dbgs (exec (getAssertFunction Mod) s) = dbgs s.
Proof.
  intros Mod s.
  destruct (getAssertFunction_effect Mod s) as (Hv & Ha & _ & Hl & Hm).
  exists (assertDeclaration Mod).
  split; [exact Hv |]. do 6 (split; [reflexivity |]).
  split; [| split; [| split; assumption]].
  - rewrite Hm, Nat.eqb_refl. reflexivity.
  - intros m Hne. rewrite Hm. apply Nat.eqb_neq in Hne. rewrite Hne.
    reflexivity.
Qed.

(** X13: when the field [Assert] is null or points into another module
    than that of [F], the run on [F] appends one function to the module
    of [F], a declaration of that module, and nothing to any other
    module, whatever the module holds already; the field then points to
    the function that was appended. *)
Theorem stale_field_declares_again :
  forall (F : Function) (s : State),
    stale s F = true ->
    exists D,
      modules (exec (runOnFunction F) s) (getParent F)
      = modules s (getParent F) ++ [D]
      /\ isDeclaration D = true
      /\ getParent D = getParent F
      /\ (forall m, m <> getParent F ->
                    modules (exec (runOnFunction F) s) m = modules s m)
      /\ Assert (exec (runOnFunction F) s) = Some D.
Proof.
  intros F s Hs.
  destruct (runOnFunction_effect F s) as (_ & _ & Hc).
  rewrite Hs in Hc. destruct Hc as [Ha Hm].
  exists (assertDeclaration (getParent F)).
  split; [| split; [reflexivity | split; [reflexivity | split]]].
  - rewrite Hm, Nat.eqb_refl. reflexivity.
  - intros m Hne. rewrite Hm. apply Nat.eqb_neq in Hne. rewrite Hne.
    reflexivity.
  - exact Ha.
Qed.

Lemma stale_field_declares_again_witness :
  exists D,
    modules
      (exec (runOnFunction oneAccess)
            (mkState None
                     (fun m => if Nat.eqb m 0
                               then [oneAccess; assertDeclaration 0%nat]
                               else [])
                     false []))
      0%nat
    = [oneAccess; assertDeclaration 0%nat] ++ [D]
    /\ isDeclaration D = true
    /\ Assert
         (exec (runOnFunction oneAccess)
               (mkState None
                        (fun m => if Nat.eqb m 0
                                  then [oneAccess; assertDeclaration 0%nat]
                                  else [])
                        false []))
       = Some D.
Proof.
  destruct (stale_field_declares_again
              oneAccess
              (mkState None
                       (fun m => if Nat.eqb m 0
                                 then [oneAccess; assertDeclaration 0%nat]
                                 else [])
                       false []))
    as (D & H & Hd & _ & _ & Ha); [reflexivity |].
  exists D. split; [exact H | split; [exact Hd | exact Ha]].
Defined.

Lemma emit_off e s : DebugFlag s = false -> emit e s = s.
Proof. intros H. unfold emit. rewrite H. reflexivity. Qed.

Lemma analyse_quiet GEP s :
  DebugFlag s = false -> exec (analyse GEP) s = s.
Proof.
  intros Hd.
  assert (Hdbg : forall e, LLVM_DEBUG e s = (Done tt, s))
    by (intros e; unfold LLVM_DEBUG; rewrite (emit_off e s Hd); reflexivity).
  unfold exec, analyse. unfold bind at 1. rewrite Hdbg.
  unfold bind at 1.
  assert (Hl : exists al, recoverArrayLength GEP s = (Done al, s)).
  { destruct (lengthKnown_dec GEP) as [(L & elt & H) | H].
    - exists (to_int L). rewrite (recoverArrayLength_array GEP L elt s H).
      rewrite (emit_off _ s Hd). reflexivity.
    - exists (-1). apply recoverArrayLength_other. exact H. }
  destruct Hl as (al & Hl). rewrite Hl.
  unfold bind at 1.
  assert (Hi : snd (recoverDesiredIndex GEP s) = s).
  { unfold recoverDesiredIndex.
    destruct (hasAllConstantIndices GEP); [| reflexivity].
    unfold bind at 1. rewrite Hdbg.
    destruct (getOperand GEP (getNumIndices GEP)) as [op |]; [| reflexivity].
    destruct (dyn_cast_ConstantInt op) as [c |]; [| reflexivity].
    unfold bind. rewrite Hdbg. reflexivity. }
  destruct (recoverDesiredIndex GEP s) as [[di | msg | why] s2];
    simpl in Hi; subst s2; try reflexivity.
  unfold bind.
  destruct (decisionPolicy_cases al di s) as [(_ & Hp) | (Hv & _ & _)].
  - rewrite Hp. reflexivity.
  - destruct (Z_lt_dec al 0) as [Ha | Ha];
      [| destruct (Z_lt_dec di 0) as [Hn | Hn]].
    + rewrite decisionPolicy_unknown by lia.
      rewrite (emit_off _ s Hd), Hdbg. reflexivity.
    + rewrite decisionPolicy_unknown by lia.
      rewrite (emit_off _ s Hd), Hdbg. reflexivity.
    + rewrite decisionPolicy_correct by lia.
      rewrite (emit_off _ s Hd), Hdbg. reflexivity.
Qed.

Lemma processWorkList_quiet WorkList s :
  DebugFlag s = false -> exec (processWorkList WorkList) s = s.
Proof.
  intros Hd. induction WorkList as [| GEP rest IH]; [reflexivity |].
  pose proof (analyse_quiet GEP s Hd) as Hq.
  unfold exec in *. simpl. unfold bind.
  destruct (analyse GEP s) as [[[] | msg | why] s1]; simpl in Hq; subst s1;
    [exact IH | reflexivity | reflexivity].
Qed.

Lemma runOnFunction_quiet F s :
  DebugFlag s = false ->
  DebugFlag (exec (runOnFunction F) s) = false
  /\ dbgs (exec (runOnFunction F) s) = dbgs s.
Proof.
  intros Hd.
  destruct (runOnFunction_preamble F s) as (s2 & E & Hd2 & Hl2 & _).
  rewrite Hd in Hd2. rewrite (emit_off _ s Hd) in Hl2.
  pose proof (processWorkList_quiet (collect F) s2 Hd2) as Hq.
  unfold exec in *. rewrite E. unfold bind.
  destruct (processWorkList (collect F) s2) as [[[] | msg | why] s3];
    simpl in *; subst s3; split; assumption.
Qed.

(** X15: with the debug flag off nothing is written to the debug stream,
    by any number of runs, whether they return or end in a diagnostic or
    a fault. *)
Theorem no_debug_output_without_flag :
  forall (Fs : list Function) (s : State),
    DebugFlag s = false ->
    dbgs (exec (runOnFunctions Fs) s) = dbgs s
    /\ DebugFlag (exec (runOnFunctions Fs) s) = false.
Proof.
  intros Fs. induction Fs as [| F rest IH]; intros s Hd.
  - split; [reflexivity | exact Hd].
  - destruct (runOnFunction_quiet F s Hd) as [Hf Hl].
    destruct (exec_runOnFunctions_cons F rest s) as [E | E];
      rewrite E.
    + split; assumption.
    + destruct (IH _ Hf) as [Hl' Hf']. split; [congruence | exact Hf'].
Qed.

Lemma no_debug_output_without_flag_witness :
  dbgs (exec (runOnFunctions [twoAccesses; violatingFunction; oneAccess])
             (mkState None (fun _ => []) false []))
  = [].
Proof.
  destruct (no_debug_output_without_flag
              [twoAccesses; violatingFunction; oneAccess]
              (mkState None (fun _ => []) false [])) as [H _];
    [reflexivity |].
  exact H.
Defined.

(* ================================================================== *)
(** ** Further properties: [stringFormat]                             *)
(* ================================================================== *)

Section Formatting.

Lemma vsnprintf_last (c : ascii) (args : list Z) :
  vsnprintf (String c EmptyString) args = String c EmptyString.
Proof.
  destruct c as [[] [] [] [] [] [] [] []]; reflexivity.
Qed.

Lemma vsnprintf_step (c d : ascii) (rest : string) (args : list Z) :
  vsnprintf (String c (String d rest)) args
  = if Ascii.eqb c "%" && Ascii.eqb d "d"
    then match args with
         | a :: args' => (print_d a ++ vsnprintf rest args')%string
         | [] => vsnprintf rest []
         end
    else String c (vsnprintf (String d rest) args).
Proof.
  destruct c as [[] [] [] [] [] [] [] []]; try reflexivity.
  destruct d as [[] [] [] [] [] [] [] []]; reflexivity.
Qed.

Lemma noNUL_append (a b : string) :
  noNUL (a ++ b) = noNUL a && noNUL b.
Proof.
  induction a as [| c a IH]; [reflexivity |].
  simpl. rewrite IH. apply andb_assoc.
Qed.

Lemma noNUL_string_of_uint (d : Decimal.uint) :
  noNUL (NilEmpty.string_of_uint d) = true.
Proof. induction d; simpl; auto. Qed.

Lemma noNUL_print_d (n : Z) : noNUL (print_d n) = true.
Proof.
  unfold print_d, NilZero.string_of_int, NilZero.string_of_uint.
  destruct (Z.to_int n) as [d | d].
  - destruct d; try reflexivity; apply (noNUL_string_of_uint (_ d)).
  - change (noNUL (String "-" EmptyString ++
                   match d with
                   | Decimal.Nil => "0"
                   | _ => NilEmpty.string_of_uint d
                   end) = true).
    rewrite noNUL_append.
    destruct d; try reflexivity; apply (noNUL_string_of_uint (_ d)).
Qed.

Lemma noNUL_vsnprintf (format : string) :
  (forall args, noNUL format = true -> noNUL (vsnprintf format args) = true)
  /\ (forall c args,
         noNUL (String c format) = true ->
         noNUL (vsnprintf (String c format) args) = true).
Proof.
  induction format as [| d rest [IH1 IH2]].
  - split; [reflexivity |].
    intros c args H. rewrite vsnprintf_last. exact H.
  - split; [intros args H; apply IH2; exact H |].
    intros c args H. rewrite vsnprintf_step.
    simpl in H. apply andb_true_iff in H. destruct H as [Hc H].
    destruct (Ascii.eqb c "%" && Ascii.eqb d "d").
    + apply andb_true_iff in H. destruct H as [_ H].
      destruct args as [| a args'].
      * apply IH1. exact H.
      * rewrite noNUL_append, noNUL_print_d. apply IH1. exact H.
    + simpl. rewrite Hc. apply IH2. exact H.
Qed.

Lemma noNUL_c_str (s : string) : noNUL (c_str s) = true.
Proof.
  induction s as [| c s IH]; [reflexivity |].
  simpl. destruct (Ascii.eqb c NUL) eqn:E; [reflexivity |].
  simpl. rewrite E. exact IH.
Qed.

Lemma c_str_noNUL (s : string) : noNUL s = true -> c_str s = s.
Proof.
  induction s as [| c s IH]; [reflexivity |].
  simpl. intros H. apply andb_true_iff in H. destruct H as [Hc H].
  apply negb_true_iff in Hc. rewrite Hc, (IH H). reflexivity.
Qed.

Lemma c_str_before_NUL (a b : string) :
  noNUL a = true -> c_str (a ++ String NUL b) = a.
Proof.
  induction a as [| c a IH]; [reflexivity |].
  simpl. intros H. apply andb_true_iff in H. destruct H as [Hc H].
  apply negb_true_iff in Hc. rewrite Hc, (IH H). reflexivity.
Qed.

Lemma take_length (s : string) : take (String.length s) s = s.
Proof.
  induction s as [| c s IH]; [reflexivity | simpl; now rewrite IH].
Qed.

Lemma noPercent_vsnprintf (format : string) (args : list Z) :
  noPercent format = true -> vsnprintf format args = format.
Proof.
  induction format as [| c rest IH]; [reflexivity |].
  intros H. simpl in H. apply andb_true_iff in H. destruct H as [Hc H].
  apply negb_true_iff in Hc.
  destruct rest as [| d rest]; [apply vsnprintf_last |].
  rewrite vsnprintf_step, Hc. cbn [andb]. rewrite (IH H). reflexivity.
Qed.

Lemma supported_last (c : ascii) (args : list Z) :
  supported (String c EmptyString) args
  = negb (Ascii.eqb c "%") && negb (Ascii.eqb c NUL).
Proof.
  destruct c as [[] [] [] [] [] [] [] []]; reflexivity.
Qed.

Lemma supported_step (c d : ascii) (rest : string) (args : list Z) :
  supported (String c (String d rest)) args
  = if Ascii.eqb c "%" && Ascii.eqb d "d"
    then match args with
         | a :: args' =>
             (- 2 ^ 31 <=? a) && (a <=? INT_MAX) && supported rest args'
         | [] => false
         end
    else negb (Ascii.eqb c "%") && negb (Ascii.eqb c NUL)
         && supported (String d rest) args.
Proof.
  destruct c as [[] [] [] [] [] [] [] []]; try reflexivity.
  destruct d as [[] [] [] [] [] [] [] []]; reflexivity.
Qed.

Lemma supported_noNUL (format : string) :
  (forall args, supported format args = true -> noNUL format = true)
  /\ (forall c args,
         supported (String c format) args = true ->
         noNUL (String c format) = true).
Proof.
  induction format as [| d rest [IH1 IH2]].
  - split; [reflexivity |].
    intros c args H. rewrite supported_last in H.
    apply andb_true_iff in H. destruct H as [_ H].
    simpl. rewrite H. reflexivity.
  - split; [intros args H; apply (IH2 d args); exact H |].
    intros c args H. rewrite supported_step in H.
    destruct (Ascii.eqb c "%" && Ascii.eqb d "d") eqn:E.
    + apply andb_true_iff in E. destruct E as [Ec Ed].
      apply Ascii.eqb_eq in Ec. apply Ascii.eqb_eq in Ed. subst c d.
      destruct args as [| a args']; [discriminate |].
      apply andb_true_iff in H. destruct H as [_ H].
      simpl. apply (IH1 args'). exact H.
    + apply andb_true_iff in H. destruct H as [H Hr].
      apply andb_true_iff in H. destruct H as [_ Hc].
      change (noNUL (String c (String d rest)))
        with (negb (Ascii.eqb c NUL) && noNUL (String d rest)).
      rewrite Hc. apply (IH2 d args). exact Hr.
Qed.

(** In the model, the buffer returns the text of the C string of the
    format. *)
Lemma stringFormat_buffered_text (format : string) (args : list Z) :
  stringFormat_buffered format args = vsnprintf (c_str format) args.
Proof.
  unfold stringFormat_buffered, vsnprintf_buffer. cbn [fst snd].
  set (text := vsnprintf (c_str format) args).
  rewrite Nat.add_1_r. rewrite take_length.
  rewrite string_append_assoc. simpl append.
  apply c_str_before_NUL.
  apply (proj1 (noNUL_vsnprintf (c_str format))). apply noNUL_c_str.
Qed.

End Formatting.

(** X16: for a format without NUL whose conversions are all [%d], each
    with an argument in the range of [int], [stringFormat] with its
    buffer returns the whole text, never a truncated one: the result has
    the length that the first [vsnprintf] measured, and it is the text
    that [decisionPolicy] passes to [report_fatal_error]. *)
Theorem stringFormat_returns_whole_text :
  forall (format : string) (args : list Z),
    supported format args = true ->
    stringFormat_buffered format args = vsnprintf format args
    /\ String.length (stringFormat_buffered format args)
       = fst (vsnprintf_buffer EmptyString 0 (c_str format) args)
    /\ stringFormat_buffered format args = stringFormat format args.
Proof.
  intros format args H.
  pose proof (proj1 (supported_noNUL format) args H) as Hn.
  pose proof (stringFormat_buffered_text format args) as E.
  split; [| split].
  - rewrite E, (c_str_noNUL format Hn). reflexivity.
  - rewrite E. reflexivity.
  - rewrite E, (c_str_noNUL format Hn). reflexivity.
Qed.

Lemma stringFormat_returns_whole_text_witness :
  supported violationFormat [7; 5] = true
  /\ stringFormat_buffered violationFormat [7; 5]
     = "Wrong assignment to index 7 (zero-based) while array has length 5! Aborting..."
  /\ String.length (stringFormat_buffered violationFormat [7; 5]) = 78%nat.
Proof.
  destruct (stringFormat_returns_whole_text violationFormat [7; 5])
    as (H1 & H2 & _); [reflexivity |].
  split; [reflexivity | split].
  - rewrite H1. reflexivity.
  - rewrite H2. reflexivity.
Defined.

(** X17: when the C string of the format (its characters before the
    first NUL) has no [%] in it, [stringFormat] with its buffer returns
    that C string, whatever arguments are passed. *)
Theorem stringFormat_without_conversion :
  forall (format : string) (args : list Z),
    noPercent (c_str format) = true ->
    stringFormat_buffered format args = c_str format.
Proof.
  intros format args H. rewrite stringFormat_buffered_text.
  apply noPercent_vsnprintf. exact H.
Qed.

Lemma stringFormat_without_conversion_witness :
  stringFormat_buffered "BoundsCheck LLVM Pass" [1; 2]
  = "BoundsCheck LLVM Pass"
  /\ stringFormat_buffered (String "a" (String "b" (String NUL "cd"))) []
     = "ab".
Proof.
  split.
  - apply (stringFormat_without_conversion "BoundsCheck LLVM Pass" [1; 2]).
    reflexivity.
  - apply (stringFormat_without_conversion
             (String "a" (String "b" (String NUL "cd"))) []).
    reflexivity.
Defined.

(* ================================================================== *)
(** ** Further properties: the diagnostic within the range of [int]   *)
(* ================================================================== *)

(** The text of [%d] is the decimal notation of the number: it parses
    back to it. *)
Lemma print_d_parses (n : Z) :
  option_map Z.of_int (NilZero.int_of_string (print_d n)) = Some n.
Proof.
  unfold print_d.
  assert (H : NilZero.int_of_string (NilZero.string_of_int (Z.to_int n))
              = Some (Z.to_int n)).
  { apply NilZero.isi.
    - destruct n as [| p | p]; try discriminate.
      simpl. intros E. inversion E as [E'].
      apply (DecimalPos.Unsigned.to_uint_nonnil p). exact E'.
    - destruct n as [| p | p]; try discriminate.
      simpl. intros E. inversion E as [E'].
      apply (DecimalPos.Unsigned.to_uint_nonnil p). exact E'. }
  rewrite H. simpl. rewrite DecimalZ.of_to. reflexivity.
Qed.

(** X19: for a pointer operand that points to an array of [L] elements
    and constant indices whose last one has the value [i], with
    [0 <= L <= i <= INT_MAX], the analysis ends in the diagnostic of line
    85 made of [i] and [L]: the message contains the decimal notation of
    both, texts that parse back to [i] and to [L]. *)
Theorem diagnostic_names_index_and_length_within_int :
  forall (GEP : GetElementPtrInst) (L : Z) (elt : Ty) (front : list Value)
         (c : APInt) (s : State),
    getPointerOperandType GEP = PointerTy (ArrayTy L elt) ->
    indices GEP = front ++ [ConstantInt c] ->
    hasAllConstantIndices GEP = true ->
    0 <= L <= getZExtValue c ->
    getZExtValue c <= INT_MAX ->
    value (analyse GEP) s = FatalError (violationMessage (getZExtValue c) L)
    /\ contains (violationMessage (getZExtValue c) L)
                (print_d (getZExtValue c))
    /\ contains (violationMessage (getZExtValue c) L) (print_d L)
    /\ option_map Z.of_int
                  (NilZero.int_of_string (print_d (getZExtValue c)))
       = Some (getZExtValue c)
    /\ option_map Z.of_int (NilZero.int_of_string (print_d L)) = Some L.
Proof.
  intros GEP L elt front c s Ht Hi Hc HL Hr.
  assert (Ha : value (recoverArrayLength GEP) s = Done L)
    by (apply (length_recovery_within_int GEP L elt s Ht); lia).
  assert (Hb : value (recoverDesiredIndex GEP) s = Done (getZExtValue c))
    by (apply (index_recovery_within_int GEP front c s Hi Hc); lia).
  destruct (analyse_value GEP s L (getZExtValue c) Ha Hb) as [Hv _].
  destruct (violationMessage_contains L (getZExtValue c)) as (C1 & C2 & _).
  split; [apply Hv; lia |].
  split; [exact C1 | split; [exact C2 | split; apply print_d_parses]].
Qed.

Lemma diagnostic_names_index_and_length_within_int_witness :
  value (analyse (element 5 5)) initial
  = FatalError
      "Wrong assignment to index 5 (zero-based) while array has length 5! Aborting..."
  /\ print_d 5 = "5".
Proof.
  destruct (diagnostic_names_index_and_length_within_int
              (element 5 5) 5 (IntegerTy 32) [i64 0] (mkAPInt 64 5) initial)
    as (H & _); try reflexivity; try (vm_compute; split; discriminate).
  - vm_compute. discriminate.
  - split; [exact H | reflexivity].
Defined.
